(** * iBuddy: the identity store, the mentee/note store and their
    authorization rules

    A shallow embedding of [app/models/user.server.ts] and
    [app/models/mentee.server.ts].  The document store behind
    [arc.tables()] is a record of three finite maps; an [async] function
    is a computation that threads the store and may reject. *)

From Stdlib Require Import ZArith Ascii String HexadecimalString HexadecimalN.
From stdpp Require Import base option strings list gmap fin_maps.

Local Open Scope string_scope.

(** ** Strings *)

(** Strings are sequences of 8-bit characters.  On such text
    [String.prototype.toLowerCase] maps [A]..[Z] to [a]..[z] and keeps
    every other character. *)
Definition lower_ascii (c : ascii) : ascii :=
  let n := nat_of_ascii c in
  if ((65 <=? n) && (n <=? 90))%nat then ascii_of_nat (n + 32) else c.

Fixpoint toLowerCase (s : string) : string :=
  match s with
  | EmptyString => EmptyString
  | String c rest => String (lower_ascii c) (toLowerCase rest)
  end.

(** [a > b] on two JS strings: lexicographic on code units. *)
Definition js_string_gt (a b : string) : bool := String.ltb b a.

(** [`${v}`] for a property that may be missing. *)
Definition js_template (v : option string) : string := default "undefined" v.

(** [begins_with(sk, :sk)] of the store's query language. *)
Definition begins_with (s p : string) : bool := String.prefix p s.

(** A value of type [any], as far as [typeof] tells values apart. *)
Inductive JsValue :=
  | JsUndefined
  | JsNull
  | JsBoolean (b : bool)
  | JsNumber (n : Z)
  | JsString (s : string)
  | JsObject.

Definition typeof (v : JsValue) : string :=
  match v with
  | JsUndefined => "undefined"
  | JsNull => "object"
  | JsBoolean _ => "boolean"
  | JsNumber _ => "number"
  | JsString _ => "string"
  | JsObject => "object"
  end.

(** [s.split(sep)] for a one-character separator: the pieces between
    the separators, empty pieces included; never the empty list. *)
Fixpoint js_split (sep : ascii) (s : string) : list string :=
  match s with
  | EmptyString => [EmptyString]
  | String c rest =>
      if Ascii.eqb c sep then EmptyString :: js_split sep rest
      else match js_split sep rest with
           | piece :: pieces => String c piece :: pieces
           | [] => [String c EmptyString]
           end
  end.

(** [s[0]] inside a template literal: the first character, or the text
    "undefined" for the empty string. *)
Definition js_first_char (s : string) : string :=
  match s with
  | EmptyString => "undefined"
  | String c _ => String c EmptyString
  end.

(** A string that may be missing, as a condition: the empty string is
    falsy like [undefined]. *)
Definition js_truthy (v : option string) : option string :=
  match v with
  | Some EmptyString => None
  | _ => v
  end.

(** [ToInt32] on an integral number, and the bit operators built on it. *)
Definition to_int32 (x : Z) : Z := ((x + 2 ^ 31) mod 2 ^ 32 - 2 ^ 31)%Z.
Definition js_shl (a n : Z) : Z := to_int32 (Z.shiftl (to_int32 a) n).
Definition js_sar (a n : Z) : Z := Z.shiftr (to_int32 a) n.
Definition js_and (a b : Z) : Z := Z.land (to_int32 a) (to_int32 b).

(** [n.toString(16)] for an integral number. *)
Definition toString16 (n : Z) : string :=
  if (n <? 0)%Z
  then "-" +:+ NilZero.string_of_uint (N.to_hex_uint (Z.to_N (- n)))
  else NilZero.string_of_uint (N.to_hex_uint (Z.to_N n)).

(** [s.slice(-n)]: the last [n] characters, the whole of a shorter
    string. *)
Definition slice_last (n : nat) (s : string) : string :=
  substring (String.length s - n) n s.

(** ** Data model *)

(** [enum Role { BUDDY = "0", HR = "1", PRESIDENT = "2", ADMIN = "3" }] *)
Inductive Role := BUDDY | HR | PRESIDENT | ADMIN.

Definition role_value (r : Role) : string :=
  match r with
  | BUDDY => "0"
  | HR => "1"
  | PRESIDENT => "2"
  | ADMIN => "3"
  end.

#[global] Instance Role_eq_dec : EqDecision Role.
Proof. solve_decision. Defined.

(** [r1 === r2] and [r1 > r2] on roles are the string operations on the
    enum's values. *)
Definition role_eqb (r1 r2 : Role) : bool :=
  String.eqb (role_value r1) (role_value r2).
Definition role_gt (r1 r2 : Role) : bool :=
  js_string_gt (role_value r1) (role_value r2).

(** [type UnsavedUser = Omit<User, "id">] *)
Record UnsavedUser := {
  email : string;
  firstName : string;
  lastName : string;
  faculty : string;
  role : Role;
  agreementStartDate : string;
  agreementEndDate : string;
}.

(** [interface User extends Contractor]: the identifier and the other
    fields. *)
Record User := {
  user_id : string;
  user_fields :> UnsavedUser;
}.

(** [type Note] *)
Record Note := {
  note_id : string;
  content : string;
  authorId : string;
  createdAt : string;
  updatedAt : option string;
}.

(** An item of the [mentees] collection: attribute name to value.  The
    collection holds mentee items and note items side by side, and
    [update] sets single attributes, so items are kept as the store has
    them. *)
Abbreviation Item := (gmap string string).

(** [MENTEE_STATUS] *)
Inductive MenteeStatus :=
  | ASSIGNED | CONTACTED | IN_TOUCH | ARRIVED
  | MET | REJECTED | UNRESPONSIVE | SERVED.

Definition status_value (s : MenteeStatus) : string :=
  match s with
  | ASSIGNED => "assigned"
  | CONTACTED => "contacted"
  | IN_TOUCH => "in_touch"
  | ARRIVED => "arrived"
  | MET => "met"
  | REJECTED => "rejected"
  | UNRESPONSIVE => "unresponsive"
  | SERVED => "served"
  end.

(** The three collections: [users] keyed by [id], [passwords] keyed by
    [userId] (the value is the stored hash), [mentees] keyed by
    [(pk, sk)]. *)
Record DB := {
  users : gmap string User;
  passwords : gmap string string;
  mentees : gmap (string * string) Item;
}.

Definition set_users (f : gmap string User → gmap string User) (db : DB) : DB :=
  {| users := f (users db); passwords := passwords db; mentees := mentees db |}.
Definition set_passwords (f : gmap string string → gmap string string) (db : DB) : DB :=
  {| users := users db; passwords := f (passwords db); mentees := mentees db |}.
Definition set_mentees
    (f : gmap (string * string) Item → gmap (string * string) Item) (db : DB) : DB :=
  {| users := users db; passwords := passwords db; mentees := f (mentees db) |}.

(** ** Asynchronous computations over the store *)

Inductive Outcome (A : Type) :=
  | Resolved (a : A)
  | Rejected (msg : string).
Arguments Resolved {A} a.
Arguments Rejected {A} msg.

Definition Async (A : Type) : Type := DB → Outcome A * DB.

#[global] Instance Async_ret : MRet Async := λ A a db, (Resolved a, db).
#[global] Instance Async_bind : MBind Async := λ A B f m db,
  match m db with
  | (Resolved a, db') => f a db'
  | (Rejected msg, db') => (Rejected msg, db')
  end.

Definition throw {A} (msg : string) : Async A := λ db, (Rejected msg, db).
Definition reads {A} (f : DB → A) : Async A := λ db, (Resolved (f db), db).
Definition writes (f : DB → DB) : Async unit := λ db, (Resolved tt, f db).

(** [invariant(value, message)] of tiny-invariant. *)
Definition invariant {A} (v : option A) (msg : string) : Async A :=
  match v with
  | Some a => mret a
  | None => throw ("Invariant failed: " +:+ msg)
  end.

(** [Promise.all] over store operations: every one is issued; they take
    effect on the store one after the other, and the first rejection is
    the rejection of the whole. *)
Fixpoint Promise_all (ps : list (Async unit)) : Async unit :=
  match ps with
  | [] => mret tt
  | p :: rest => _ ← p; Promise_all rest
  end.

(** ** Store primitives *)

(** [db.users.put(item)]: replaces the item under the item's key and
    answers the item. *)
Definition users_put (u : User) : Async User :=
  _ ← writes (set_users <[user_id u := u]>); mret u.

Definition passwords_put (userId hash : string) : Async unit :=
  writes (set_passwords <[userId := hash]>).

Definition users_delete (id : string) : Async unit :=
  writes (set_users (delete id)).
Definition passwords_delete (userId : string) : Async unit :=
  writes (set_passwords (delete userId)).

(** [db.mentees.put(item)]: the key is read off the item's [pk] and [sk]
    attributes; an item without them is refused by the store. *)
Definition mentees_put (item : Item) : Async Item :=
  match item !! "pk", item !! "sk" with
  | Some pk, Some sk => _ ← writes (set_mentees <[(pk, sk) := item]>); mret item
  | _, _ => throw "ValidationException"
  end.

Definition mentees_get (pk sk : string) : Async (option Item) :=
  reads (λ db, mentees db !! (pk, sk)).

Definition mentees_delete (pk sk : string) : Async unit :=
  writes (set_mentees (delete (pk, sk))).

(** [db.mentees.update({Key, UpdateExpression: "set ..."})]: sets the
    listed attributes on the item under [Key]; as in the store's
    [UpdateItem], a missing item is created from the key and the listed
    attributes. *)
Definition mentees_update (pk sk : string) (sets : list (string * string)) : Async unit :=
  writes (set_mentees (λ m,
    let old := default {[ "pk" := pk; "sk" := sk ]} (m !! (pk, sk)) in
    <[(pk, sk) := foldr (λ kv it, <[kv.1 := kv.2]> it) old sets]> m)).

(** A query whose key condition pins the whole primary key answers at
    most one item. *)
Definition users_query (id : string) : Async (list User) :=
  reads (λ db, option_list (users db !! id)).
Definition passwords_query (userId : string) : Async (list string) :=
  reads (λ db, option_list (passwords db !! userId)).
Definition mentees_query_key (pk sk : string) : Async (list Item) :=
  reads (λ db, option_list (mentees db !! (pk, sk))).

(** The items any other query or scan answers, for a condition on key
    and item.  The order of the answer is the map's enumeration order. *)
Definition mentees_select (cond : string * string → Item → bool) : Async (list Item) :=
  reads (λ db, (filter (λ kv, cond kv.1 kv.2 = true) (map_to_list (mentees db))).*2).

(** Services outside the two model files. *)
Class Externals := {
  (** [bcrypt.hash(plaintext, rounds)] *)
  bcrypt_hash : string → nat → string;
  (** [bcrypt.compare(plaintext, hash)] *)
  bcrypt_compare : string → string → bool;
  (** [new Date(s).valueOf()]: milliseconds since the epoch, [None] for an
      invalid date *)
  Date_parse : string → option Z;
  (** [new Date().toISOString()] for a clock reading *)
  toISOString : Z → string;
  (** the count [getUserAssetCount] of [asset.server] reads for an owner *)
  assetCount : string → DB → nat;
}.

(** ** [app/models/mentee.server.ts] *)

Module mentee_server.

Definition id2pk (id : string) : string := "Mentee#" +:+ id.
Definition id2NoteSk (id : string) : string := "Note#" +:+ id.

Definition getMenteeById (id : string) : Async (option Item) :=
  let key := id2pk id in
  Items ← mentees_query_key key key;
  mret (head Items).

Definition getAllMentees : Async (list Item) :=
  mentees_select (λ k _, begins_with k.2 "Mentee#").

(** Index [menteesByBuddyId]. *)
Definition getMenteeListItems (buddyId : string) : Async (list Item) :=
  mentees_select (λ _ it, bool_decide (it !! "buddyId" = Some buddyId)).

Definition getMenteeCount (buddyId : string) : Async nat :=
  Items ← mentees_select (λ _ it, bool_decide (it !! "buddyId" = Some buddyId));
  mret (length Items).

(** [cuid()] is the store-independent id generator; its answer [id] is
    an input of the model.  The object literal lists [pk], [sk], [id],
    [status], then spreads [newMentee] over them, then sets [email]. *)
Definition createMentee (id : string) (newMentee : Item) : Async Item :=
  let key := id2pk id in
  let status := status_value ASSIGNED in
  match newMentee !! "email" with
  | None => throw "TypeError"
  | Some newMentee_email =>
      _ ← mentees_put
            (<["email" := toLowerCase newMentee_email]>
               (newMentee ∪
                  {[ "pk" := key; "sk" := key; "id" := id; "status" := status ]}));
      mentee ← getMenteeById id;
      invariant mentee "Mentee not found, something went wrong"
  end.

Definition updateMentee (updatedMentee : Item) : Async Item :=
  let key := id2pk (js_template (updatedMentee !! "id")) in
  mentees_put (updatedMentee ∪ {[ "pk" := key; "sk" := key ]}).

Definition updateMenteeStatus (menteeId newStatus : string) : Async unit :=
  let key := id2pk menteeId in
  mentees_update key key [("status", newStatus)].

Definition getNotesOfMentee (menteeId : string) : Async (list Item) :=
  mentees_select (λ k _, String.eqb k.1 (id2pk menteeId) && begins_with k.2 "Note#").

Definition deleteMentee (menteeId : string) : Async unit :=
  let key := id2pk menteeId in
  notes ← getNotesOfMentee menteeId;
  Promise_all
    (mentees_delete key key ::
     map (λ note, mentees_delete key (id2NoteSk (js_template (note !! "id")))) notes).

(** Index [menteeByEmail]. *)
Definition isEmailUnique (email : string) : Async bool :=
  Items ← mentees_select (λ _ it, bool_decide (it !! "email" = Some email));
  mret (Nat.eqb (length Items) 0).

Section clock.
Context {services : Externals}.

(** [now] is the clock reading [new Date()] takes. *)
Definition createNote (id : string) (now : Z) (menteeId content authorId : string)
    : Async Item :=
  mentees_put
    {[ "pk" := id2pk menteeId; "sk" := id2NoteSk id; "id" := id;
       "content" := content; "authorId" := authorId;
       "createdAt" := toISOString now ]}.

Definition updateNote (now : Z) (menteeId noteId content : string) : Async unit :=
  mentees_update (id2pk menteeId) (id2NoteSk noteId)
    [("content", content); ("updatedAt", toISOString now)].

End clock.

Definition getNote (menteeId noteId : string) : Async (option Item) :=
  mentees_get (id2pk menteeId) (id2NoteSk noteId).

Definition deleteNote (menteeId noteId : string) : Async unit :=
  mentees_delete (id2pk menteeId) (id2NoteSk noteId).

Definition canUserMutateMentee (user : User) : bool :=
  negb (role_eqb (role user) BUDDY).

Definition canUserMutateNote (user : User) (note : Note) : bool :=
  String.eqb (user_id user) (authorId note) || negb (role_eqb (role user) BUDDY).

End mentee_server.

(** ** [app/models/user.server.ts] *)

Module user_server.

Record Decision := {
  canDelete : bool;
  reason : string;
}.

Definition email2UserId (email : string) : string := "User#" +:+ email.

Definition getUserListItems : Async (list User) :=
  reads (λ db, (map_to_list (users db)).*2).

Definition getUserById (id : string) : Async (option User) :=
  Items ← users_query id;
  mret (head Items).

Definition getUserByEmail (email : string) : Async (option User) :=
  let userId := email2UserId email in
  getUserById userId.

Definition getUserPasswordByEmail (email : string) : Async (option string) :=
  let userId := email2UserId email in
  Items ← passwords_query userId;
  mret (head Items).

Definition isEmailUnique (email : string) : Async bool :=
  user ← getUserByEmail email;
  mret (negb (bool_decide (is_Some user))).

Definition updateUser (updatedUser : UnsavedUser) : Async User :=
  users_put {| user_id := email2UserId (email updatedUser);
               user_fields := updatedUser |}.

Definition deleteUser (id : string) : Async unit :=
  Promise_all [passwords_delete id; users_delete id].

Definition deleteUserByEmail (email : string) : Async unit :=
  let userId := email2UserId email in
  deleteUser userId.

Section externals.
Context {services : Externals}.

(** The argument of the source is [{password, email, ...userProps}]; the
    record written is [{id: userId, email: lowerEmail, ...userProps}]. *)
Definition createUser (newUser : UnsavedUser) (password : string) : Async User :=
  let lowerEmail := toLowerCase (email newUser) in
  let userId := email2UserId lowerEmail in
  let hashedPassword := bcrypt_hash password 10 in
  _ ← passwords_put userId hashedPassword;
  _ ← users_put
        {| user_id := userId;
           user_fields :=
             {| email := lowerEmail;
                firstName := firstName newUser;
                lastName := lastName newUser;
                faculty := faculty newUser;
                role := role newUser;
                agreementStartDate := agreementStartDate newUser;
                agreementEndDate := agreementEndDate newUser |} |};
  user ← getUserById userId;
  invariant user "User not found after being created. This should not happen".

Definition verifyLogin (email password : string) : Async (option User) :=
  let maybeEmailInDb := toLowerCase email in
  userPassword ← getUserPasswordByEmail maybeEmailInDb;
  match userPassword with
  | None => mret None
  | Some hash =>
      let isValid := bcrypt_compare password hash in
      if isValid then getUserByEmail maybeEmailInDb else mret None
  end.

(** [new Date(a) > new Date()]: a comparison of two time values, false
    when the left one is invalid. *)
Definition date_gt (a : option Z) (b : Z) : bool :=
  match a with
  | Some t => (b <? t)%Z
  | None => false
  end.

Definition getBuddyById (now : Z) (id : string) : Async (option User) :=
  getUserById id ≫= λ buddy : option User,
  match buddy return Async (option User) with
  | None => mret None
  | Some buddy =>
      let isBuddyActive := date_gt (Date_parse (agreementEndDate buddy)) now in
      mret (if isBuddyActive then Some buddy else None)
  end.

Definition getUserAssetCount (id : string) : Async nat := reads (assetCount id).

Definition canUserDeleteUser (loggedInUser userToDelete : User) : Async Decision :=
  let isNotLoggedInUser :=
    negb (String.eqb (user_id loggedInUser) (user_id userToDelete)) in
  if negb isNotLoggedInUser then
    mret {| canDelete := false; reason := "You can not delete yourself" |}
  else
  let isNotAdmin := negb (role_eqb (role userToDelete) ADMIN) in
  if negb isNotAdmin then
    mret {| canDelete := false; reason := "You can not delete an admin" |}
  else
  let isHigher := role_gt (role loggedInUser) (role userToDelete) in
  if negb isHigher then
    mret {| canDelete := false;
            reason := "You can only delete users with a lower role than you" |}
  else
  menteeCount ← mentee_server.getMenteeCount (user_id userToDelete);
  let hasMentees := (0 <? menteeCount)%nat in
  if hasMentees then
    mret {| canDelete := false;
            reason := "You can not delete a user with active mentees" |}
  else
  assetCount ← getUserAssetCount (user_id userToDelete);
  let hasAssets := (0 <? assetCount)%nat in
  if hasAssets then
    mret {| canDelete := false;
            reason := "You can not delete a user who has assets" |}
  else
    mret {| canDelete := true; reason := "" |}.

End externals.

Definition isUserId (value : JsValue) : bool :=
  String.eqb (typeof value) "string"
  && match value with
     | JsString s => String.prefix "User#" s
     | _ => false
     end.

End user_server.

(** ** [app/components/avatar.tsx] *)

Module avatar.

Definition charCodeAt (c : ascii) : Z := Z.of_nat (nat_of_ascii c).

(** The first loop of [stringToColor], from the character it stands at. *)
Fixpoint hash_from (s : string) (hash : Z) : Z :=
  match s with
  | EmptyString => hash
  | String c rest => hash_from rest (charCodeAt c + (js_shl hash 5 - hash))
  end.

Definition stringToColor (s : string) : string :=
  let hash := hash_from s 0 in
  foldl (λ color i,
           let value := js_and (js_sar hash (i * 8)) 255 in
           color +:+ slice_last 2 ("00" +:+ toString16 value))
        "#" [0; 1; 2]%Z.

Record AvatarProps := {
  bgcolor : string;
  children : string;
}.

(** [name.split(" ")[1][0]] is a [TypeError] when the name has no second
    piece. *)
Definition stringAvatar (name : string) : Outcome AvatarProps :=
  let color := stringToColor name in
  match js_split " " name with
  | first :: second :: _ =>
      Resolved {| bgcolor := color;
                  children := js_first_char first +:+ js_first_char second |}
  | _ => Rejected "TypeError"
  end.

End avatar.

(** ** [app/routes/dashboard/mentees/$menteeId.edit.tsx] *)

Module mentee_edit.

Inductive Response :=
  | redirect (url : string)
  | json_mentee (mentee : Item).

(** The loader, from the user [requireUser] answered and the route
    parameter [menteeId]. *)
Definition loader (user : User) (menteeId : option string) : Async Response :=
  if role_eqb (role user) BUDDY then mret (redirect "/dashboard")
  else
    menteeId ← invariant (js_truthy menteeId) "Mentee ID is required";
    mentee ← mentee_server.getMenteeById menteeId;
    mentee ← invariant mentee "Mentee not found";
    mret (json_mentee mentee).

Section schema.
Context {services : Externals}.

(** [a >= b] on two dates: false when either is invalid. *)
Definition date_ge (a b : option Z) : bool :=
  match a, b with
  | Some x, Some y => (y <=? x)%Z
  | _, _ => false
  end.

(** The refinement of the schema on the two agreement dates; [today] is
    the clock reading. *)
Definition agreement_window_ok (today : Z)
    (agreementStartDate agreementEndDate : string) : bool :=
  if String.eqb agreementStartDate "" || String.eqb agreementEndDate "" then true
  else
    let startDate := Date_parse agreementStartDate in
    let endDate := Date_parse agreementEndDate in
    user_server.date_gt endDate today && date_ge endDate startDate.

End schema.

End mentee_edit.

(** ** Vocabulary of the statements *)

Import mentee_server user_server.

(** The total order [BUDDY < HR < PRESIDENT < ADMIN]. *)
Definition role_rank (r : Role) : nat :=
  match r with
  | BUDDY => 0
  | HR => 1
  | PRESIDENT => 2
  | ADMIN => 3
  end.

Definition allow : Decision := {| canDelete := true; reason := "" |}.
Definition deny (why : string) : Decision := {| canDelete := false; reason := why |}.

(** Ordered rule evaluation, first violated rule wins: [d] is the
    verdict of the rules, each given as (violation, reason). *)
Fixpoint verdict (rules : list (Prop * string)) (d : Decision) : Prop :=
  match rules with
  | [] => d = allow
  | (violated, why) :: rest => (violated ∧ d = deny why) ∨ (¬ violated ∧ verdict rest d)
  end.

(** Some mentee item is assigned to the buddy [uid]. *)
Definition has_mentee (db : DB) (uid : string) : Prop :=
  ∃ k it, mentees db !! k = Some it ∧ it !! "buddyId" = Some uid.

Definition deletion_rules {services : Externals} (actor target : User) (db : DB)
    : list (Prop * string) :=
  [ (user_id actor = user_id target, "You can not delete yourself");
    (role target = ADMIN, "You can not delete an admin");
    (¬ role_rank (role target) < role_rank (role actor),
       "You can only delete users with a lower role than you");
    (has_mentee db (user_id target), "You can not delete a user with active mentees");
    (0 < assetCount (user_id target) db, "You can not delete a user who has assets") ].

(** The credential check of [verifyLogin]: a hash is stored for the lowercased email
    and the plaintext verifies against it. *)
Definition credential_ok {services : Externals} (db : DB) (email password : string) : bool :=
  match passwords db !! email2UserId (toLowerCase email) with
  | Some hash => bcrypt_compare password hash
  | None => false
  end.

(** An input of [createMentee] as its type [Omit<Mentee, "id" | "status">]
    has it: an [email], and none of the attributes the function sets. *)
Definition unsaved_mentee (newMentee : Item) : Prop :=
  is_Some (newMentee !! "email")
  ∧ newMentee !! "pk" = None ∧ newMentee !! "sk" = None
  ∧ newMentee !! "id" = None ∧ newMentee !! "status" = None.

(** The item [createMentee] hands to the store. *)
Definition new_mentee_item (id lowerEmail : string) (newMentee : Item) : Item :=
  <["email" := lowerEmail]>
    (newMentee ∪
       {[ "pk" := id2pk id; "sk" := id2pk id; "id" := id;
          "status" := status_value ASSIGNED ]}).

(** Every note item in the partition of [menteeId] sits under the sort
    key of its own [id], the way [createNote] writes it. *)
Definition notes_keyed_by_id (db : DB) (menteeId : string) : Prop :=
  ∀ sk it,
    mentees db !! (id2pk menteeId, sk) = Some it →
    begins_with sk "Note#" = true →
    sk = id2NoteSk (js_template (it !! "id")).

(** Every user is stored under its own id. *)
Definition users_keyed_by_id (db : DB) : Prop :=
  ∀ k u, users db !! k = Some u → user_id u = k.

(** A lower-case hexadecimal digit. *)
Definition is_hex_digit (c : ascii) : bool :=
  let n := nat_of_ascii c in
  ((48 <=? n) && (n <=? 57) || (97 <=? n) && (n <=? 102))%nat.

Fixpoint all_chars (p : ascii → bool) (s : string) : bool :=
  match s with
  | EmptyString => true
  | String c rest => p c && all_chars p rest
  end.

(** The string has no space in it. *)
Definition no_space (s : string) : bool :=
  all_chars (λ c, negb (Ascii.eqb c " ")) s.

(** The value an [await] sees, if the promise resolves, and an attribute
    of an item that may be absent. *)
Definition resolved {A} (r : Outcome A * DB) : option A :=
  match r.1 with
  | Resolved a => Some a
  | Rejected _ => None
  end.

Definition attr (a : string) (it : option Item) : option string :=
  it ≫= λ i : Item, i !! a.

(** ** Concrete stores and services for the examples *)

Definition empty_db : DB := {| users := ∅; passwords := ∅; mentees := ∅ |}.

Definition demo_externals : Externals := {|
  bcrypt_hash := λ plaintext _, "$2a$10$" +:+ plaintext;
  bcrypt_compare := λ plaintext hash, String.eqb hash ("$2a$10$" +:+ plaintext);
  Date_parse := λ s,
    if String.eqb s "2030-01-01" then Some 1893456000000%Z
    else if String.eqb s "2020-01-01" then Some 1577836800000%Z
    else None;
  toISOString := λ _, "2024-05-01T00:00:00.000Z";
  assetCount := λ _ _, 0;
|}.

Definition demo_user (mail : string) (r : Role) (endDate : string) : User :=
  {| user_id := "User#" +:+ mail;
     user_fields :=
       {| email := mail; firstName := "Ada"; lastName := "Lovelace";
          faculty := "FIT"; role := r;
          agreementStartDate := "2019-01-01"; agreementEndDate := endDate |} |}.

Definition demo_note (author : string) : Note :=
  {| note_id := "n1"; content := "met at the airport"; authorId := author;
     createdAt := "2024-05-01T00:00:00.000Z"; updatedAt := None |}.

(** A user form with an email in mixed case. *)
Definition mixed_case_user : UnsavedUser :=
  {| email := "Ada@Example.com"; firstName := "Ada"; lastName := "Lovelace";
     faculty := "FIT"; role := BUDDY;
     agreementStartDate := "2019-01-01"; agreementEndDate := "2030-01-01" |}.

(** A mentee form as the create page sends it, and the same form with a
    [status] attribute added. *)
Definition mentee_form : Item :=
  {[ "email" := "Bob@Example.com"; "firstName" := "Bob"; "lastName" := "Stone";
     "buddyId" := "User#ada@example.com"; "countryCode" := "CZ";
     "homeUniversity" := "CTU"; "hostFaculty" := "FIT";
     "gender" := "male"; "degree" := "master";
     "agreementStartDate" := "2019-01-01"; "agreementEndDate" := "2030-01-01" ]}.

Definition mentee_form_with_status : Item := <["status" := "served"]> mentee_form.

(** One user with a stored password. *)
Definition one_user_db : DB :=
  {| users := {[ "User#ada@example.com" := demo_user "ada@example.com" BUDDY "2030-01-01" ]};
     passwords := {[ "User#ada@example.com" := "$2a$10$s3cret" ]};
     mentees := ∅ |}.

(** One mentee with one note written by [createNote]. *)
Definition one_mentee_db : DB :=
  {| users := ∅; passwords := ∅;
     mentees :=
       {[ ("Mentee#m1", "Mentee#m1") :=
            {[ "pk" := "Mentee#m1"; "sk" := "Mentee#m1"; "id" := "m1";
               "status" := "assigned"; "email" := "bob@example.com";
               "buddyId" := "User#ada@example.com" ]};
          ("Mentee#m1", "Note#n1") :=
            {[ "pk" := "Mentee#m1"; "sk" := "Note#n1"; "id" := "n1";
               "content" := "met at the airport";
               "authorId" := "User#ada@example.com";
               "createdAt" := "2024-05-01T00:00:00.000Z" ]} ]} |}.

(** A note item without an [id] attribute, as [updateNote] leaves it
    when no note sits under the key it is given. *)
Definition orphan_note_db : DB :=
  snd (updateNote (services := demo_externals) 0 "m1" "n9" "late edit" empty_db).

(** ** Auxiliary facts *)

Ltac async :=
  cbv [mbind mret Async_bind Async_ret reads writes throw invariant
       users_query passwords_query mentees_query_key mentees_select
       users_put passwords_put users_delete passwords_delete
       mentees_get mentees_delete mentees_update].

Lemma lower_ascii_idem c : lower_ascii (lower_ascii c) = lower_ascii c.
Proof. by destruct c as [[] [] [] [] [] [] [] []]. Qed.

Lemma toLowerCase_idem s : toLowerCase (toLowerCase s) = toLowerCase s.
Proof. induction s as [|c s IH]; simpl; [done|]. by rewrite lower_ascii_idem, IH. Qed.

Lemma role_eqb_eq r1 r2 : role_eqb r1 r2 = true ↔ r1 = r2.
Proof. by destruct r1, r2. Qed.

Lemma role_gt_rank r1 r2 : role_gt r1 r2 = true ↔ role_rank r2 < role_rank r1.
Proof. destruct r1, r2; cbv [role_rank]; split; (done || lia). Qed.

Lemma select_nonempty (m : gmap (string * string) Item) (cond : string * string → Item → bool) :
  0 < length (filter (λ kv, cond kv.1 kv.2 = true) (map_to_list m)).*2
  ↔ ∃ k it, m !! k = Some it ∧ cond k it = true.
Proof.
  rewrite length_fmap. split.
  - destruct (filter _ _) as [|[k it] l] eqn:E; simpl; [lia|]. intros _.
    assert ((k, it) ∈ filter (λ kv, cond kv.1 kv.2 = true) (map_to_list m)) as Hin
      by (rewrite E; left).
    apply list_elem_of_filter in Hin as [Hc Hin].
    apply elem_of_map_to_list in Hin. eauto.
  - intros (k & it & Hk & Hc).
    assert ((k, it) ∈ filter (λ kv, cond kv.1 kv.2 = true) (map_to_list m)) as Hin.
    { apply list_elem_of_filter. split; [done|]. by apply elem_of_map_to_list. }
    destruct (filter _ _); [by apply elem_of_nil in Hin | simpl; lia].
Qed.

Lemma select_empty (m : gmap (string * string) Item) (cond : string * string → Item → bool) :
  (filter (λ kv, cond kv.1 kv.2 = true) (map_to_list m)).*2 = []
  ↔ ∀ k it, m !! k = Some it → cond k it = false.
Proof.
  pose proof (select_nonempty m cond) as Hne. split.
  - intros E k it Hk. destruct (cond k it) eqn:Hc; [|done].
    rewrite E in Hne. simpl in Hne. destruct Hne as [_ Hne]. 
    assert (0 < 0) by eauto. lia.
  - intros Hall. destruct (_.*2) as [|x l] eqn:E; [done|].
    destruct Hne as [Hne _]. destruct Hne as (k & it & Hk & Hc); [simpl; lia|].
    rewrite (Hall k it Hk) in Hc. done.
Qed.

Lemma getMenteeCount_run buddyId db :
  getMenteeCount buddyId db =
    (Resolved (length (filter (λ kv : string * string * Item,
        bool_decide (kv.2 !! "buddyId" = Some buddyId) = true)
        (map_to_list (mentees db))).*2), db).
Proof. done. Qed.

Lemma getMenteeCount_pos buddyId db n :
  getMenteeCount buddyId db = (Resolved n, db) → 0 < n ↔ has_mentee db buddyId.
Proof.
  rewrite getMenteeCount_run. intros [= <-].
  pose proof (select_nonempty (mentees db)
    (λ _ it, bool_decide (it !! "buddyId" = Some buddyId))) as Hsel.
  cbv beta in Hsel. rewrite Hsel. unfold has_mentee. by setoid_rewrite bool_decide_eq_true.
Qed.

(** ** Authorization rules *)

Section authorization.
Context {services : Externals}.

Lemma canUserDeleteUser_unfold actor target db :
  canUserDeleteUser actor target db =
    (Resolved
       (if String.eqb (user_id actor) (user_id target)
        then deny "You can not delete yourself"
        else if role_eqb (role target) ADMIN
        then deny "You can not delete an admin"
        else if negb (role_gt (role actor) (role target))
        then deny "You can only delete users with a lower role than you"
        else if (0 <? length (filter (λ kv : string * string * Item,
                   bool_decide (kv.2 !! "buddyId" = Some (user_id target)) = true)
                   (map_to_list (mentees db))).*2)%nat
        then deny "You can not delete a user with active mentees"
        else if (0 <? assetCount (user_id target) db)%nat
        then deny "You can not delete a user who has assets"
        else allow), db).
Proof.
  unfold canUserDeleteUser.
  destruct (String.eqb _ _); [done|]. simpl.
  destruct (role_eqb _ _); [done|]. simpl.
  destruct (role_gt _ _); [|done]. simpl.
  unfold mbind at 1. unfold Async_bind at 1. rewrite getMenteeCount_run.
  destruct (0 <? length _)%nat; [done|].
  unfold getUserAssetCount. async.
  by destruct (0 <? assetCount _ _)%nat.
Qed.

(** C1 (amended).  [canUserDeleteUser] leaves the store alone and
    answers the verdict of its five rules taken in order: same id, target
    is ADMIN, actor's role not strictly greater, target has a mentee,
    target has an asset; the first violated rule gives the reason, and
    the answer is [canDelete = true] with the empty reason exactly when
    no rule is violated.  A user can never delete itself; an HR actor
    facing another user who is ADMIN is refused by the second rule, with
    the reason "You can not delete an admin"; an ADMIN actor may delete
    another user who is BUDDY and has neither mentees nor assets. *)
Theorem canUserDeleteUser_first_violated_rule :
  (∀ (actor target : User) (db : DB), ∃ d,
      canUserDeleteUser actor target db = (Resolved d, db)
      ∧ verdict (deletion_rules actor target db) d
      ∧ (d = allow ↔ Forall (λ rule, ¬ rule.1) (deletion_rules actor target db))
      ∧ (canDelete d = true ↔ d = allow))
  ∧ (∀ (u : User) (db : DB),
      canUserDeleteUser u u db = (Resolved (deny "You can not delete yourself"), db))
  ∧ (∀ (actor target : User) (db : DB),
      role actor = HR → role target = ADMIN → user_id actor ≠ user_id target →
      canUserDeleteUser actor target db
        = (Resolved (deny "You can not delete an admin"), db))
  ∧ (∀ (actor target : User) (db : DB),
      role actor = ADMIN → role target = BUDDY → user_id actor ≠ user_id target →
      ¬ has_mentee db (user_id target) → assetCount (user_id target) db = 0 →
      canUserDeleteUser actor target db = (Resolved allow, db)).
Proof.
  split; [|split; [|split]].
  - intros actor target db. rewrite canUserDeleteUser_unfold.
    eexists; split; [reflexivity|].
    unfold deletion_rules. rewrite !Forall_cons, Forall_nil. simpl.
    pose proof (getMenteeCount_pos (user_id target) db _
                  (getMenteeCount_run _ _)) as Hm.
    destruct (String.eqb_spec (user_id actor) (user_id target)) as [Hid|Hid].
    { split; [by left|]. split; [|done]. split; [done|]. tauto. }
    destruct (role_eqb (role target) ADMIN) eqn:Hadm.
    { apply role_eqb_eq in Hadm.
      split; [right; split; [done|by left]|]. split; [|done]. split; [done|]. tauto. }
    assert (role target ≠ ADMIN) as Hna.
    { intros Heq. apply role_eqb_eq in Heq. congruence. }
    destruct (role_gt (role actor) (role target)) eqn:Hgt; simpl.
    2:{ assert (¬ role_rank (role target) < role_rank (role actor)) as Hng.
        { intros Hlt. apply role_gt_rank in Hlt. congruence. }
        split; [right; split; [done|]; right; split; [done|]; by left|].
        split; [|done]. split; [done|]. tauto. }
    apply role_gt_rank in Hgt.
    destruct (Nat.ltb_spec 0 (length (filter (λ kv : string * string * Item,
                   bool_decide (kv.2 !! "buddyId" = Some (user_id target)) = true)
                   (map_to_list (mentees db))).*2)) as [Hc|Hc].
    { apply Hm in Hc.
      split; [right; split; [done|]; right; split; [done|]; right; split; [tauto|];
              by left|].
      split; [|done]. split; [done|]. tauto. }
    assert (¬ has_mentee db (user_id target)) as Hnm by (rewrite <- Hm; lia).
    destruct (Nat.ltb_spec 0 (assetCount (user_id target) db)) as [Ha|Ha].
    { split; [right; split; [done|]; right; split; [done|]; right; split; [tauto|];
              right; split; [done|]; by left|].
      split; [|done]. split; [done|]. tauto. }
    split; [right; split; [done|]; right; split; [done|]; right; split; [tauto|];
            right; split; [done|]; right; split; [lia|done]|].
    split; [|done]. split; [|done]. intros _. repeat split; (done || tauto || lia).
  - intros u db. rewrite canUserDeleteUser_unfold. by rewrite String.eqb_refl.
  - intros actor target db Ha Ht Hid. rewrite canUserDeleteUser_unfold.
    apply String.eqb_neq in Hid. by rewrite Hid, Ht.
  - intros actor target db Ha Ht Hid Hnm Hassets. rewrite canUserDeleteUser_unfold.
    apply String.eqb_neq in Hid. rewrite Hid, Ht, Ha, Hassets. simpl.
    pose proof (getMenteeCount_pos (user_id target) db _
                  (getMenteeCount_run _ _)) as Hm.
    destruct (Nat.ltb_spec 0 (length (filter (λ kv : string * string * Item,
                   bool_decide (kv.2 !! "buddyId" = Some (user_id target)) = true)
                   (map_to_list (mentees db))).*2)) as [Hc|Hc]; [|done].
    apply Hm in Hc. contradiction.
Qed.

(** C8.  [canUserMutateNote] answers true exactly when the user wrote
    the note or holds a role above BUDDY: a BUDDY is allowed on its own
    notes only, every other role on every note. *)
Theorem canUserMutateNote_author_or_above_buddy (user : User) (note : Note) :
  (canUserMutateNote user note = true
     ↔ user_id user = authorId note ∨ role_rank BUDDY < role_rank (role user))
  ∧ (role user = BUDDY → user_id user = authorId note →
       canUserMutateNote user note = true)
  ∧ (role user = BUDDY → user_id user ≠ authorId note →
       canUserMutateNote user note = false)
  ∧ (role user ≠ BUDDY → canUserMutateNote user note = true).
Proof.
  unfold canUserMutateNote.
  destruct (String.eqb_spec (user_id user) (authorId note)) as [Heq|Hne];
    destruct (role user); simpl; repeat split; try done; try lia; try tauto;
    intros [?|?]; (done || lia).
Qed.

End authorization.

(** ** Identity store *)

Lemma getUserById_run id db : getUserById id db = (Resolved (users db !! id), db).
Proof. unfold getUserById. async. by destruct (users db !! id). Qed.

Lemma getUserPasswordByEmail_run mail db :
  getUserPasswordByEmail mail db = (Resolved (passwords db !! email2UserId mail), db).
Proof. unfold getUserPasswordByEmail. async. by destruct (passwords db !! _). Qed.

(** C2 (amended).  [getUserByEmail] looks up the id ["User#" + email]
    with the email taken as it is given; it agrees with the lookup of
    ["User#" + email.toLowerCase()] whenever the email is already in
    lower case. *)
Theorem getUserByEmail_verbatim_id (mail : string) (db : DB) :
  getUserByEmail mail db = getUserById ("User#" +:+ mail) db
  ∧ (toLowerCase mail = mail →
       getUserByEmail mail db = getUserById ("User#" +:+ toLowerCase mail) db).
Proof. split; [done|]. by intros ->. Qed.

Section identity.
Context {services : Externals}.

Lemma createUser_run newUser password db :
  let lowerEmail := toLowerCase (email newUser) in
  let user :=
    {| user_id := "User#" +:+ lowerEmail;
       user_fields :=
         {| email := lowerEmail;
            firstName := firstName newUser;
            lastName := lastName newUser;
            faculty := faculty newUser;
            role := role newUser;
            agreementStartDate := agreementStartDate newUser;
            agreementEndDate := agreementEndDate newUser |} |} in
  createUser newUser password db =
    (Resolved user,
     {| users := <[user_id user := user]> (users db);
        passwords := <[user_id user := bcrypt_hash password 10]> (passwords db);
        mentees := mentees db |}).
Proof.
  intros lowerEmail user. unfold createUser.
  fold lowerEmail. unfold email2UserId. fold user.
  async. unfold set_users, set_passwords. simpl.
  by rewrite lookup_insert_eq.
Qed.

(** The record [createUser] writes carries the id of its own lowercased
    email. *)
Lemma createUser_id_lowercased newUser password db user db' :
  createUser newUser password db = (Resolved user, db') →
  users db' !! user_id user = Some user
  ∧ user_id user = "User#" +:+ toLowerCase (email user).
Proof.
  rewrite createUser_run. intros [= <- <-]. simpl.
  split; [by rewrite lookup_insert_eq|]. by rewrite toLowerCase_idem.
Qed.

(** What [updateUser] writes: the id is built from the email as given. *)
Lemma updateUser_run updatedUser db :
  let user := {| user_id := "User#" +:+ email updatedUser;
                 user_fields := updatedUser |} in
  updateUser updatedUser db =
    (Resolved user,
     {| users := <[user_id user := user]> (users db);
        passwords := passwords db; mentees := mentees db |}).
Proof. done. Qed.

(** C5.  [verifyLogin] leaves the store alone; it answers the user
    looked up under the lowercased email when a hash is stored for that
    email and the plaintext verifies against it, and absence otherwise.
    An email without a stored hash and a known email with a plaintext
    that does not verify give the same answer. *)
Theorem verifyLogin_credential_or_absence :
  (∀ (mail password : string) (db : DB),
      verifyLogin mail password db =
        (Resolved (if credential_ok db mail password
                   then users db !! ("User#" +:+ toLowerCase mail)
                   else None), db))
  ∧ (∀ (mail password : string) (db : DB) (u : User),
      fst (verifyLogin mail password db) = Resolved (Some u)
      ↔ (∃ hash, passwords db !! ("User#" +:+ toLowerCase mail) = Some hash
                 ∧ bcrypt_compare password hash = true)
        ∧ users db !! ("User#" +:+ toLowerCase mail) = Some u)
  ∧ (∀ (mail1 password1 mail2 password2 hash : string) (db1 db2 : DB),
      passwords db1 !! ("User#" +:+ toLowerCase mail1) = None →
      passwords db2 !! ("User#" +:+ toLowerCase mail2) = Some hash →
      bcrypt_compare password2 hash = false →
      fst (verifyLogin mail1 password1 db1) = Resolved None
      ∧ fst (verifyLogin mail2 password2 db2) = Resolved None).
Proof.
  assert (∀ (mail password : string) (db : DB),
      verifyLogin mail password db =
        (Resolved (if credential_ok db mail password
                   then users db !! ("User#" +:+ toLowerCase mail)
                   else None), db)) as Hrun.
  { intros mail password db. unfold verifyLogin, credential_ok.
    unfold mbind at 1. unfold Async_bind at 1. rewrite getUserPasswordByEmail_run.
    unfold email2UserId. destruct (passwords db !! _) as [hash|]; [|done].
    destruct (bcrypt_compare password hash); [|done].
    unfold getUserByEmail. by rewrite getUserById_run. }
  split; [exact Hrun|]. split.
  - intros mail password db u. rewrite Hrun. unfold credential_ok, email2UserId. simpl.
    destruct (passwords db !! _) as [hash|] eqn:Hp.
    + destruct (bcrypt_compare password hash) eqn:Hc.
      * split; [intros [= ->]; eauto | by intros [_ ->]].
      * split; [done|]. intros [(h & [= <-] & Hv) _]. congruence.
    + split; [done|]. by intros [(h & ? & _) _].
  - intros mail1 password1 mail2 password2 hash db1 db2 H1 H2 Hc.
    rewrite !Hrun. unfold credential_ok, email2UserId. by rewrite H1, H2, Hc.
Qed.

(** C10.  [getBuddyById] answers the user stored under the id only when
    the user's [agreementEndDate] parses to a time strictly after the
    clock reading; a missing user, a date that is not after now, and a
    date that does not parse all give absence.  [getUserById] answers
    the stored user whatever the dates are. *)
Theorem getBuddyById_active_contract :
  (∀ (now : Z) (id : string) (db : DB),
      getBuddyById now id db =
        (Resolved
           (match (users db !! id : option User) return option User with
            | Some buddy =>
                if date_gt (Date_parse (agreementEndDate buddy)) now
                then Some buddy else None
            | None => None
            end), db))
  ∧ (∀ (now : Z) (id : string) (db : DB) (u : User),
      fst (getBuddyById now id db) = Resolved (Some u)
      ↔ users db !! id = Some u
        ∧ ∃ t, Date_parse (agreementEndDate u) = Some t ∧ (now < t)%Z)
  ∧ (∀ (now t : Z) (id : string) (db : DB) (u : User),
      users db !! id = Some u →
      Date_parse (agreementEndDate u) = Some t → (t ≤ now)%Z →
      fst (getBuddyById now id db) = Resolved None
      ∧ fst (getUserById id db) = Resolved (Some u))
  ∧ (∀ (id : string) (db : DB), getUserById id db = (Resolved (users db !! id), db)).
Proof.
  assert (∀ (now : Z) (id : string) (db : DB),
      getBuddyById now id db =
        (Resolved
           (match (users db !! id : option User) return option User with
            | Some buddy =>
                if date_gt (Date_parse (agreementEndDate buddy)) now
                then Some buddy else None
            | None => None
            end), db)) as Hrun.
  { intros now id db. unfold getBuddyById.
    unfold mbind at 1. unfold Async_bind at 1. rewrite getUserById_run.
    by destruct (users db !! id). }
  split; [exact Hrun|]. split; [|split].
  - intros now id db u. rewrite Hrun. simpl.
    destruct (users db !! id) as [buddy|]; [|split; [done|by intros [? _]]].
    unfold date_gt. destruct (Date_parse (agreementEndDate buddy)) as [t|] eqn:Hd.
    + destruct (Z.ltb_spec now t).
      * split; [intros [= <-]; eauto | by intros [[= ->] _]].
      * split; [done|]. intros [[= <-] (t' & Ht' & Hlt)]. 
        rewrite Hd in Ht'. injection Ht' as <-. lia.
    + split; [done|]. intros [[= <-] (t' & Ht' & _)]. congruence.
  - intros now t id db u Hu Hd Hle. rewrite Hrun, getUserById_run, Hu, Hd. simpl.
    split; [|done]. destruct (Z.ltb_spec now t); [lia|done].
  - apply getUserById_run.
Qed.

End identity.

(** ** Mentee and note store *)

Lemma getMenteeById_run id db :
  getMenteeById id db = (Resolved (mentees db !! (id2pk id, id2pk id)), db).
Proof. unfold getMenteeById. async. by destruct (mentees db !! _). Qed.

Lemma getNotesOfMentee_run menteeId db :
  getNotesOfMentee menteeId db =
    (Resolved (filter (λ kv : string * string * Item,
        String.eqb kv.1.1 (id2pk menteeId) && begins_with kv.1.2 "Note#" = true)
        (map_to_list (mentees db))).*2, db).
Proof. done. Qed.

Lemma new_mentee_item_set id lowerEmail newMentee :
  newMentee !! "pk" = None → newMentee !! "sk" = None →
  newMentee !! "id" = None → newMentee !! "status" = None →
  let item := new_mentee_item id lowerEmail newMentee in
  item !! "pk" = Some (id2pk id) ∧ item !! "sk" = Some (id2pk id)
  ∧ item !! "id" = Some id ∧ item !! "status" = Some "assigned"
  ∧ item !! "email" = Some lowerEmail.
Proof.
  intros Hpk Hsk Hid Hst. unfold new_mentee_item. simpl.
  repeat split.
  - rewrite lookup_insert_ne by done. rewrite lookup_union_r by done.
    by rewrite lookup_insert_eq.
  - rewrite lookup_insert_ne by done. rewrite lookup_union_r by done.
    rewrite lookup_insert_ne by done. by rewrite lookup_insert_eq.
  - rewrite lookup_insert_ne by done. rewrite lookup_union_r by done.
    rewrite !lookup_insert_ne by done. by rewrite lookup_insert_eq.
  - rewrite lookup_insert_ne by done. rewrite lookup_union_r by done.
    rewrite !lookup_insert_ne by done. by rewrite lookup_singleton_eq.
  - by rewrite lookup_insert_eq.
Qed.

Lemma new_mentee_item_keyed id lowerEmail newMentee :
  ∃ pk sk, new_mentee_item id lowerEmail newMentee !! "pk" = Some pk
         ∧ new_mentee_item id lowerEmail newMentee !! "sk" = Some sk.
Proof.
  unfold new_mentee_item. rewrite !lookup_insert_ne by done.
  rewrite !lookup_union.
  rewrite lookup_insert_eq, lookup_insert_ne, lookup_insert_eq by done.
  destruct (newMentee !! "pk"), (newMentee !! "sk"); simpl; eauto.
Qed.

(** [createMentee] always gets its item into the store, under the key
    the item carries. *)
Lemma createMentee_put id newMentee mail db :
  newMentee !! "email" = Some mail →
  ∃ pk sk,
    mentees (snd (createMentee id newMentee db))
      = <[(pk, sk) := new_mentee_item id (toLowerCase mail) newMentee]> (mentees db).
Proof.
  intros Hmail. unfold createMentee. rewrite Hmail.
  fold (new_mentee_item id (toLowerCase mail) newMentee).
  destruct (new_mentee_item_keyed id (toLowerCase mail) newMentee)
    as (pk & sk & Hpk & Hsk).
  exists pk, sk. unfold mentees_put. rewrite Hpk, Hsk.
  async. rewrite getMenteeById_run. cbn [fst snd].
  by destruct (mentees _ !! _).
Qed.

Lemma createMentee_run id newMentee mail db :
  newMentee !! "email" = Some mail →
  newMentee !! "pk" = None → newMentee !! "sk" = None →
  newMentee !! "id" = None → newMentee !! "status" = None →
  let item := new_mentee_item id (toLowerCase mail) newMentee in
  createMentee id newMentee db =
    (Resolved item, set_mentees <[(id2pk id, id2pk id) := item]> db).
Proof.
  intros Hmail Hpk Hsk Hid Hst item. unfold createMentee. rewrite Hmail.
  fold (new_mentee_item id (toLowerCase mail) newMentee). fold item.
  destruct (new_mentee_item_set id (toLowerCase mail) newMentee Hpk Hsk Hid Hst)
    as (Ipk & Isk & _).
  fold item in Ipk, Isk. unfold mentees_put. rewrite Ipk, Isk.
  async. rewrite getMenteeById_run. cbn [mentees set_mentees].
  by rewrite lookup_insert_eq.
Qed.

(** C4 (amended).  For an input that has an email and, as its type
    says, no [status], [id], [pk] or [sk] attribute, [createMentee]
    stores under [("Mentee#" + id, "Mentee#" + id)] and answers an item
    whose status is "assigned", whose email is the lowercased input
    email, whose id is the generated id and whose partition and sort key
    are both ["Mentee#" + id]; the other attributes are the input's, and
    no other item of the store changes. *)
Theorem createMentee_assigned_lowercased
    (id : string) (newMentee : Item) (mail : string) (db : DB) :
  newMentee !! "email" = Some mail →
  unsaved_mentee newMentee →
  ∃ mentee db',
    createMentee id newMentee db = (Resolved mentee, db')
    ∧ mentees db' !! ("Mentee#" +:+ id, "Mentee#" +:+ id) = Some mentee
    ∧ mentee !! "status" = Some "assigned"
    ∧ mentee !! "email" = Some (toLowerCase mail)
    ∧ mentee !! "id" = Some id
    ∧ mentee !! "pk" = Some ("Mentee#" +:+ id)
    ∧ mentee !! "sk" = Some ("Mentee#" +:+ id)
    ∧ (∀ a, a ∉ ["pk"; "sk"; "id"; "status"; "email"] → mentee !! a = newMentee !! a)
    ∧ (∀ k, k ≠ ("Mentee#" +:+ id, "Mentee#" +:+ id) → mentees db' !! k = mentees db !! k)
    ∧ users db' = users db ∧ passwords db' = passwords db.
Proof.
  intros Hmail (_ & Hpk & Hsk & Hid & Hst).
  pose proof (createMentee_run id newMentee mail db Hmail Hpk Hsk Hid Hst) as Hrun.
  destruct (new_mentee_item_set id (toLowerCase mail) newMentee Hpk Hsk Hid Hst)
    as (Ipk & Isk & Iid & Ist & Imail).
  simpl in Hrun. eexists _, _. split; [exact Hrun|].
  fold (id2pk id). cbn [mentees users passwords set_mentees].
  split; [by rewrite lookup_insert_eq|].
  do 5 (split; [done|]).
  split; [|split; [|done]].
  - intros a Ha. unfold new_mentee_item.
    rewrite !not_elem_of_cons in Ha. destruct Ha as (? & ? & ? & ? & ? & _).
    rewrite lookup_insert_ne by done. rewrite lookup_union.
    rewrite !lookup_insert_ne by done. rewrite lookup_singleton_ne by done.
    by destruct (newMentee !! a).
  - intros k Hk. by rewrite lookup_insert_ne.
Qed.

(** C9.  [updateMenteeStatus] touches only the item under
    [("Mentee#" + menteeId, "Mentee#" + menteeId)]: afterwards that item
    has the new status, every other attribute the item had is as it
    was, and every other item of [mentees] (the mentee's notes among
    them) and the whole of [users] and [passwords] are unchanged. *)
Theorem updateMenteeStatus_only_status (menteeId newStatus : string) (db : DB) :
  ∃ db' after,
    updateMenteeStatus menteeId newStatus db = (Resolved tt, db')
    ∧ mentees db' !! ("Mentee#" +:+ menteeId, "Mentee#" +:+ menteeId) = Some after
    ∧ after !! "status" = Some newStatus
    ∧ (∀ before : Item,
         mentees db !! ("Mentee#" +:+ menteeId, "Mentee#" +:+ menteeId) = Some before →
         after = <["status" := newStatus]> before
         ∧ ∀ a, a ≠ "status" → after !! a = before !! a)
    ∧ (∀ k, k ≠ ("Mentee#" +:+ menteeId, "Mentee#" +:+ menteeId) →
         mentees db' !! k = mentees db !! k)
    ∧ users db' = users db ∧ passwords db' = passwords db.
Proof.
  unfold updateMenteeStatus. async. fold (id2pk menteeId).
  eexists _, _. split; [reflexivity|]. cbn [mentees users passwords set_mentees foldr fst snd].
  split; [by rewrite lookup_insert_eq|].
  split; [by rewrite lookup_insert_eq|].
  split; [|split; [|done]].
  - intros before ->. simpl. split; [done|].
    intros a Ha. by rewrite lookup_insert_ne.
  - intros k Hk. by rewrite lookup_insert_ne.
Qed.

(** A batch of deletes removes exactly the listed keys. *)
Lemma Promise_all_deletes (keys : list (string * string)) (db : DB) :
  ∃ db',
    Promise_all (map (λ k, mentees_delete k.1 k.2) keys) db = (Resolved tt, db')
    ∧ users db' = users db ∧ passwords db' = passwords db
    ∧ ∀ k, mentees db' !! k = if decide (k ∈ keys) then None else mentees db !! k.
Proof.
  revert db. induction keys as [|[pk sk] keys IH]; intros db.
  - exists db. by repeat split.
  - destruct (IH (set_mentees (delete (pk, sk)) db)) as (db' & Hrun & Hu & Hp & Hm).
    exists db'. split; [|split; [done|split; [done|]]].
    + simpl. unfold mbind at 1. unfold Async_bind at 1.
      unfold mentees_delete at 1. unfold writes at 1. exact Hrun.
    + intros k. rewrite Hm. cbn [mentees set_mentees].
      destruct (decide (k ∈ keys)) as [Hin|Hnin].
      * rewrite decide_True; [done | by right].
      * destruct (decide (k = (pk, sk))) as [->|Hne].
        -- rewrite decide_True; [by rewrite lookup_delete_eq | by left].
        -- rewrite decide_False; [by rewrite lookup_delete_ne|].
           rewrite elem_of_cons. tauto.
Qed.

Lemma deleteMentee_run menteeId db :
  let key := id2pk menteeId in
  let notes := (filter (λ kv : string * string * Item,
        String.eqb kv.1.1 key && begins_with kv.1.2 "Note#" = true)
        (map_to_list (mentees db))).*2 in
  deleteMentee menteeId db =
    Promise_all
      (map (λ k, mentees_delete k.1 k.2)
         ((key, key) :: map (λ note : Item, (key, id2NoteSk (js_template (note !! "id")))) notes))
      db.
Proof.
  intros key notes. unfold deleteMentee.
  unfold mbind at 1. unfold Async_bind at 1. rewrite getNotesOfMentee_run.
  fold key. fold notes. simpl. by rewrite map_map.
Qed.

(** C6 (amended).  [deleteMentee] resolves, and afterwards
    [getMenteeById] answers absence; when every note item of the
    partition sits under the sort key ["Note#" + id] of its own [id]
    attribute, [getNotesOfMentee] answers the empty sequence.  Items of
    other partitions, [users] and [passwords] are unchanged. *)
Theorem deleteMentee_cascade (menteeId : string) (db : DB) :
  ∃ db',
    deleteMentee menteeId db = (Resolved tt, db')
    ∧ getMenteeById menteeId db' = (Resolved None, db')
    ∧ (notes_keyed_by_id db menteeId → getNotesOfMentee menteeId db' = (Resolved [], db'))
    ∧ (∀ pk sk, pk ≠ "Mentee#" +:+ menteeId → mentees db' !! (pk, sk) = mentees db !! (pk, sk))
    ∧ users db' = users db ∧ passwords db' = passwords db.
Proof.
  rewrite deleteMentee_run. fold (id2pk menteeId).
  set (key := id2pk menteeId).
  set (notes := (filter _ (map_to_list (mentees db))).*2).
  set (keys := (key, key) :: map _ notes).
  destruct (Promise_all_deletes keys db) as (db' & Hrun & Hu & Hp & Hm).
  exists db'. split; [exact Hrun|].
  split; [|split; [|split; [|done]]].
  - rewrite getMenteeById_run. fold key. rewrite Hm.
    rewrite decide_True; [done | by left].
  - intros Hwf. rewrite getNotesOfMentee_run. f_equal. f_equal.
    pose proof (select_empty (mentees db')
      (λ k _, String.eqb k.1 key && begins_with k.2 "Note#")) as Hsel.
    cbv beta in Hsel. apply Hsel. clear Hsel.
    intros [pk sk] it Hk. rewrite Hm in Hk.
    destruct (decide ((pk, sk) ∈ keys)) as [|Hnin]; [done|]. cbn [fst snd].
    destruct (String.eqb_spec pk key) as [->|]; [|done].
    destruct (begins_with sk "Note#") eqn:Hpre; [|done].
    exfalso. apply Hnin. right.
    rewrite (Hwf sk it Hk Hpre).
    apply list_elem_of_In, in_map_iff. exists it. split; [done|].
    apply list_elem_of_In. unfold notes. apply list_elem_of_fmap.
    exists (key, sk, it). split; [done|].
    apply list_elem_of_filter. split.
    + simpl. by rewrite String.eqb_refl, Hpre.
    + by apply elem_of_map_to_list.
  - intros pk sk Hpk. rewrite Hm. rewrite decide_False; [done|].
    unfold keys. rewrite elem_of_cons. intros [[= -> _]|Hin]; [done|].
    apply list_elem_of_In, in_map_iff in Hin as (note & [= ->] & _). done.
Qed.

(** [createNote] keeps the notes of every partition under the sort key
    of their own id. *)
Lemma createNote_keeps_notes_keyed {services : Externals}
    (id : string) (now : Z) (menteeId content authorId : string) (db : DB) (m : string) :
  notes_keyed_by_id db m →
  notes_keyed_by_id (snd (createNote id now menteeId content authorId db)) m.
Proof.
  intros Hwf sk it. unfold createNote, mentees_put.
  rewrite lookup_insert_eq, lookup_insert_ne, lookup_insert_eq by done.
  async. cbn [snd mentees set_mentees].
  intros [[[= _ <-] <-]|[_ Hk]]%lookup_insert_Some Hpre.
  - rewrite !lookup_insert_ne by done. by rewrite lookup_insert_eq.
  - by apply Hwf.
Qed.

Section uniqueness.
Context {services : Externals}.

(** What the two [isEmailUnique] functions compute: the mentee one
    answers true exactly when no item of [mentees] has the given string
    as its [email] attribute, the user one exactly when no user is
    stored under ["User#"] followed by the given string.  Right after
    [createMentee] or [createUser] ran with an email, the lowercased
    form of that email is reported as taken. *)
Theorem isEmailUnique_exact_match :
  (∀ (mail : string) (db : DB), ∃ b,
      mentee_server.isEmailUnique mail db = (Resolved b, db)
      ∧ (b = true ↔ ∀ k it, mentees db !! k = Some it → it !! "email" ≠ Some mail))
  ∧ (∀ (mail : string) (db : DB), ∃ b,
      user_server.isEmailUnique mail db = (Resolved b, db)
      ∧ (b = true ↔ users db !! ("User#" +:+ mail) = None))
  ∧ (∀ (id : string) (newMentee : Item) (mail : string) (db : DB),
      newMentee !! "email" = Some mail →
      fst (mentee_server.isEmailUnique (toLowerCase mail)
             (snd (createMentee id newMentee db))) = Resolved false)
  ∧ (∀ (newUser : UnsavedUser) (password : string) (db : DB),
      fst (user_server.isEmailUnique (toLowerCase (email newUser))
             (snd (createUser newUser password db))) = Resolved false).
Proof.
  assert (∀ (mail : string) (db : DB), ∃ b,
      mentee_server.isEmailUnique mail db = (Resolved b, db)
      ∧ (b = true ↔ ∀ k it, mentees db !! k = Some it → it !! "email" ≠ Some mail))
    as Hmentee.
  { intros mail db. eexists. split; [reflexivity|].
    rewrite Nat.eqb_eq, length_zero_iff_nil.
    pose proof (select_empty (mentees db)
      (λ _ it, bool_decide (it !! "email" = Some mail))) as Hsel.
    cbv beta in Hsel. rewrite Hsel.
    by setoid_rewrite bool_decide_eq_false. }
  assert (∀ (mail : string) (db : DB), ∃ b,
      user_server.isEmailUnique mail db = (Resolved b, db)
      ∧ (b = true ↔ users db !! ("User#" +:+ mail) = None)) as Huser.
  { intros mail db. unfold user_server.isEmailUnique, getUserByEmail, email2UserId.
    unfold mbind at 1. unfold Async_bind at 1. rewrite getUserById_run.
    eexists. split; [reflexivity|].
    by destruct (users db !! _). }
  split; [exact Hmentee|]. split; [exact Huser|]. split.
  - intros id newMentee mail db Hmail.
    destruct (createMentee_put id newMentee mail db Hmail) as (pk & sk & Hput).
    destruct (Hmentee (toLowerCase mail) (snd (createMentee id newMentee db)))
      as (b & -> & Hb). simpl.
    destruct b; [|done]. exfalso.
    destruct Hb as [Hb _].
    apply (Hb eq_refl (pk, sk) (new_mentee_item id (toLowerCase mail) newMentee)).
    + rewrite Hput. by rewrite lookup_insert_eq.
    + unfold new_mentee_item. by rewrite lookup_insert_eq.
  - intros newUser password db. rewrite createUser_run. cbn [snd].
    destruct (Huser (toLowerCase (email newUser))
      {| users := <["User#" +:+ toLowerCase (email newUser) :=
            {| user_id := "User#" +:+ toLowerCase (email newUser);
               user_fields :=
                 {| email := toLowerCase (email newUser);
                    firstName := firstName newUser;
                    lastName := lastName newUser;
                    faculty := faculty newUser;
                    role := role newUser;
                    agreementStartDate := agreementStartDate newUser;
                    agreementEndDate := agreementEndDate newUser |} |}]> (users db);
         passwords := <["User#" +:+ toLowerCase (email newUser) :=
                          bcrypt_hash password 10]> (passwords db);
         mentees := mentees db |}) as (b & Hrun & Hb).
    cbn [user_id] in *. rewrite Hrun. simpl.
    destruct b; [|done]. exfalso. destruct Hb as [Hb _].
    specialize (Hb eq_refl). cbn [users] in Hb. by rewrite lookup_insert_eq in Hb.
Qed.

End uniqueness.

(** ** The statements at concrete inputs *)

(** The two role examples of C1 on an empty store. *)
Lemma canUserDeleteUser_first_violated_rule_witness :
  canUserDeleteUser (services := demo_externals)
      (demo_user "hr@example.com" HR "2030-01-01")
      (demo_user "root@example.com" ADMIN "2030-01-01") empty_db
    = (Resolved (deny "You can not delete an admin"), empty_db)
  ∧ canUserDeleteUser (services := demo_externals)
      (demo_user "root@example.com" ADMIN "2030-01-01")
      (demo_user "ada@example.com" BUDDY "2030-01-01") empty_db
    = (Resolved allow, empty_db).
Proof.
  destruct (canUserDeleteUser_first_violated_rule (services := demo_externals))
    as (_ & _ & Hhr & Hadmin).
  split.
  - apply Hhr; [reflexivity | reflexivity | discriminate].
  - apply Hadmin; [reflexivity | reflexivity | discriminate | | reflexivity].
    intros (k & it & Hk & _). simpl in Hk. by rewrite lookup_empty in Hk.
Defined.

(** C1, the example of the HR actor: the refusal carries the reason of
    the second rule, not the one of the role-order rule. *)
Lemma canUserDeleteUser_hr_admin_reason :
  fst (canUserDeleteUser (services := demo_externals)
         (demo_user "hr@example.com" HR "2030-01-01")
         (demo_user "root@example.com" ADMIN "2030-01-01") empty_db)
    = Resolved {| canDelete := false; reason := "You can not delete an admin" |}
  ∧ fst (canUserDeleteUser (services := demo_externals)
         (demo_user "hr@example.com" HR "2030-01-01")
         (demo_user "root@example.com" ADMIN "2030-01-01") empty_db)
    ≠ Resolved {| canDelete := false;
                  reason := "You can only delete users with a lower role than you" |}.
Proof. split; [vm_compute; reflexivity | vm_compute; discriminate]. Qed.

(** C2 at an email that is already in lower case. *)
Lemma getUserByEmail_verbatim_id_witness :
  getUserByEmail "ada@example.com" one_user_db
    = getUserById ("User#" +:+ toLowerCase "ada@example.com") one_user_db.
Proof.
  apply (proj2 (getUserByEmail_verbatim_id "ada@example.com" one_user_db)).
  reflexivity.
Defined.

(** C2 at a mixed-case email: the lookup by email finds nothing where
    the lookup by the lowercased id finds the user. *)
Lemma getUserByEmail_mixed_case_misses :
  fst (getUserByEmail "Ada@Example.com" one_user_db) = Resolved None
  ∧ fst (getUserById ("User#" +:+ toLowerCase "Ada@Example.com") one_user_db)
      = Resolved (Some (demo_user "ada@example.com" BUDDY "2030-01-01")).
Proof. split; vm_compute; reflexivity. Qed.

(** C3.  [createUser] writes a record whose id is ["User#"] followed by
    the lowercased form of the record's email; [updateUser] builds the
    id from the email as given, so for the form with the email
    "Ada@Example.com" the record it writes has the id
    "User#Ada@Example.com", which is not ["User#"] followed by the
    lowercased email. *)
Theorem updateUser_keeps_email_case :
  (∀ (services : Externals) (newUser : UnsavedUser) (password : string) (db : DB),
      ∃ user, fst (createUser newUser password db) = Resolved user
        ∧ users (snd (createUser newUser password db)) !! user_id user = Some user
        ∧ user_id user = "User#" +:+ toLowerCase (email user))
  ∧ (∀ (updatedUser : UnsavedUser) (db : DB),
      ∃ user, fst (updateUser updatedUser db) = Resolved user
        ∧ users (snd (updateUser updatedUser db)) !! user_id user = Some user
        ∧ user_id user = "User#" +:+ email user)
  ∧ (∃ user, fst (updateUser mixed_case_user empty_db) = Resolved user
        ∧ users (snd (updateUser mixed_case_user empty_db)) !! user_id user = Some user
        ∧ user_id user = "User#Ada@Example.com"
        ∧ "User#" +:+ toLowerCase (email user) = "User#ada@example.com"
        ∧ user_id user ≠ "User#" +:+ toLowerCase (email user)).
Proof.
  split; [|split].
  - intros services newUser password db. rewrite createUser_run.
    eexists. split; [reflexivity|]. cbn [snd users user_id user_fields email].
    split; [by rewrite lookup_insert_eq|]. by rewrite toLowerCase_idem.
  - intros updatedUser db. rewrite updateUser_run.
    eexists. split; [reflexivity|]. cbn [snd users user_id].
    split; [by rewrite lookup_insert_eq|]. done.
  - eexists. split; [reflexivity|]. repeat split; vm_compute; (reflexivity || discriminate).
Qed.

(** C4 at the plain mentee form. *)
Lemma createMentee_assigned_lowercased_witness :
  ∃ mentee db',
    createMentee "c1" mentee_form empty_db = (Resolved mentee, db')
    ∧ mentees db' !! ("Mentee#c1", "Mentee#c1") = Some mentee
    ∧ mentee !! "status" = Some "assigned"
    ∧ mentee !! "email" = Some "bob@example.com".
Proof.
  destruct (createMentee_assigned_lowercased "c1" mentee_form "Bob@Example.com" empty_db)
    as (mentee & db' & Hrun & Hput & Hst & Hmail & _).
  - reflexivity.
  - unfold unsaved_mentee. split; [by eexists|]. by repeat split.
  - exists mentee, db'. by repeat split.
Defined.

(** C4 at an input that carries a [status] attribute: the spread of the
    input comes after [status] in the object literal, so the stored and
    returned item keeps the input's status. *)
Lemma createMentee_input_status_wins :
  attr "status" (resolved (createMentee "c1" mentee_form_with_status empty_db))
    = Some "served"
  ∧ attr "status"
      (mentees (snd (createMentee "c1" mentee_form_with_status empty_db))
         !! ("Mentee#c1", "Mentee#c1"))
    = Some "served"
  ∧ attr "status" (resolved (createMentee "c1" mentee_form_with_status empty_db))
    ≠ Some "assigned".
Proof.
  split; [vm_compute; reflexivity|]. split; [vm_compute; reflexivity|].
  vm_compute. discriminate.
Qed.

(** C5: an unknown email and a wrong password for a known one. *)
Lemma verifyLogin_credential_or_absence_witness :
  fst (verifyLogin (services := demo_externals) "nobody@example.com" "s3cret" one_user_db)
    = Resolved None
  ∧ fst (verifyLogin (services := demo_externals) "Ada@Example.com" "guess" one_user_db)
    = Resolved None.
Proof.
  destruct (verifyLogin_credential_or_absence (services := demo_externals))
    as (_ & _ & Hsame).
  apply (Hsame "nobody@example.com" "s3cret" "Ada@Example.com" "guess" "$2a$10$s3cret");
    reflexivity.
Defined.

(** C6 at a mentee with one note written by [createNote]. *)
Lemma deleteMentee_cascade_witness :
  ∃ db',
    deleteMentee "m1" one_mentee_db = (Resolved tt, db')
    ∧ getMenteeById "m1" db' = (Resolved None, db')
    ∧ getNotesOfMentee "m1" db' = (Resolved [], db').
Proof.
  destruct (deleteMentee_cascade "m1" one_mentee_db)
    as (db' & Hrun & Hgone & Hnotes & _).
  exists db'. split; [done|]. split; [done|]. apply Hnotes.
  intros sk it Hk Hpre. unfold one_mentee_db in Hk. cbn [mentees] in Hk.
  apply lookup_insert_Some in Hk as [[[= <-] <-]|[_ Hk]]; [discriminate|].
  apply lookup_singleton_Some in Hk as [[= <-] <-]. reflexivity.
Defined.

(** C6 at a store with a note item that has no [id] attribute, which is
    what [updateNote] leaves when it is given a note id nothing is stored
    under: [deleteMentee] aims at the sort key "Note#undefined" and the
    item stays. *)
Lemma deleteMentee_leaves_unkeyed_note :
  size (mentees orphan_note_db) = 1
  ∧ attr "content" (mentees orphan_note_db !! ("Mentee#m1", "Note#n9")) = Some "late edit"
  ∧ attr "id" (mentees orphan_note_db !! ("Mentee#m1", "Note#n9")) = None
  ∧ resolved (deleteMentee "m1" orphan_note_db) = Some tt
  ∧ map (attr "sk" ∘ Some)
      <$> resolved (getNotesOfMentee "m1" (snd (deleteMentee "m1" orphan_note_db)))
    = Some [Some "Note#n9"].
Proof. repeat split; vm_compute; reflexivity. Qed.

(** The two checks right after a creation, asked with the lowercased email. *)
Lemma isEmailUnique_exact_match_witness :
  fst (mentee_server.isEmailUnique "bob@example.com"
         (snd (createMentee "c1" mentee_form empty_db))) = Resolved false
  ∧ fst (user_server.isEmailUnique "ada@example.com"
         (snd (createUser (services := demo_externals) mixed_case_user "s3cret" empty_db)))
      = Resolved false.
Proof.
  destruct (isEmailUnique_exact_match (services := demo_externals))
    as (_ & _ & Hmentee & Huser).
  split.
  - apply (Hmentee "c1" mentee_form "Bob@Example.com" empty_db). reflexivity.
  - apply (Huser mixed_case_user "s3cret" empty_db).
Defined.

(** C7.  [createMentee] and [createUser] store the lowercased email,
    and neither [isEmailUnique] lowercases what it is asked.  Right
    after a mentee is created with "Bob@Example.com", and right after a
    user is created with "Ada@Example.com", [isEmailUnique] of that very
    email answers true, where the claim requires false for every casing;
    only the lowercased form answers false.  With the check passed, a
    second [createUser] for the same email replaces the account: the
    first password no longer logs in. *)
Theorem isEmailUnique_true_for_created_email :
  fst (mentee_server.isEmailUnique "Bob@Example.com"
         (snd (createMentee "c1" mentee_form empty_db))) = Resolved true
  ∧ fst (mentee_server.isEmailUnique "bob@example.com"
         (snd (createMentee "c1" mentee_form empty_db))) = Resolved false
  ∧ fst (user_server.isEmailUnique "Ada@Example.com"
         (snd (createUser (services := demo_externals) mixed_case_user "s3cret" empty_db)))
      = Resolved true
  ∧ fst (user_server.isEmailUnique "ada@example.com"
         (snd (createUser (services := demo_externals) mixed_case_user "s3cret" empty_db)))
      = Resolved false
  ∧ fst (verifyLogin (services := demo_externals) "Ada@Example.com" "s3cret"
         (snd (createUser (services := demo_externals) mixed_case_user "s3cret" empty_db)))
      = Resolved (Some (demo_user "ada@example.com" BUDDY "2030-01-01"))
  ∧ fst (verifyLogin (services := demo_externals) "Ada@Example.com" "s3cret"
         (snd (createUser (services := demo_externals) mixed_case_user "hunter2"
                 (snd (createUser (services := demo_externals)
                         mixed_case_user "s3cret" empty_db)))))
      = Resolved None.
Proof. repeat split; vm_compute; reflexivity. Qed.

(** C8: a BUDDY on its own note, a BUDDY on another's, an HR user. *)
Lemma canUserMutateNote_author_or_above_buddy_witness :
  canUserMutateNote (demo_user "ada@example.com" BUDDY "2030-01-01")
      (demo_note "User#ada@example.com") = true
  ∧ canUserMutateNote (demo_user "ada@example.com" BUDDY "2030-01-01")
      (demo_note "User#eve@example.com") = false
  ∧ canUserMutateNote (demo_user "hr@example.com" HR "2030-01-01")
      (demo_note "User#eve@example.com") = true.
Proof.
  split; [|split].
  - destruct (canUserMutateNote_author_or_above_buddy
                (demo_user "ada@example.com" BUDDY "2030-01-01")
                (demo_note "User#ada@example.com")) as (_ & Hown & _).
    apply Hown; reflexivity.
  - destruct (canUserMutateNote_author_or_above_buddy
                (demo_user "ada@example.com" BUDDY "2030-01-01")
                (demo_note "User#eve@example.com")) as (_ & _ & Hother & _).
    apply Hother; [reflexivity | discriminate].
  - destruct (canUserMutateNote_author_or_above_buddy
                (demo_user "hr@example.com" HR "2030-01-01")
                (demo_note "User#eve@example.com")) as (_ & _ & _ & Habove).
    apply Habove. discriminate.
Defined.

(** C9 at a mentee with one note: the email and the note stay. *)
Lemma updateMenteeStatus_only_status_witness :
  ∃ db' after,
    updateMenteeStatus "m1" "contacted" one_mentee_db = (Resolved tt, db')
    ∧ mentees db' !! ("Mentee#m1", "Mentee#m1") = Some after
    ∧ after !! "status" = Some "contacted"
    ∧ after !! "email" = Some "bob@example.com"
    ∧ mentees db' !! ("Mentee#m1", "Note#n1")
        = mentees one_mentee_db !! ("Mentee#m1", "Note#n1").
Proof.
  destruct (updateMenteeStatus_only_status "m1" "contacted" one_mentee_db)
    as (db' & after & Hrun & Hafter & Hst & Hframe & Hothers & _).
  exists db', after. split; [done|]. split; [done|]. split; [done|]. split.
  - destruct (Hframe {[ "pk" := "Mentee#m1"; "sk" := "Mentee#m1"; "id" := "m1";
                        "status" := "assigned"; "email" := "bob@example.com";
                        "buddyId" := "User#ada@example.com" ]}) as [_ Hattr];
      [reflexivity|].
    rewrite Hattr by discriminate. reflexivity.
  - apply Hothers. discriminate.
Defined.

(** C10 at a clock reading after the end of the agreement. *)
Lemma getBuddyById_active_contract_witness :
  fst (getBuddyById (services := demo_externals) 1900000000000 "User#ada@example.com"
         one_user_db) = Resolved None
  ∧ fst (getUserById "User#ada@example.com" one_user_db)
      = Resolved (Some (demo_user "ada@example.com" BUDDY "2030-01-01")).
Proof.
  destruct (getBuddyById_active_contract (services := demo_externals))
    as (_ & _ & Hexpired & _).
  apply (Hexpired 1900000000000%Z 1893456000000%Z); [reflexivity | reflexivity | lia].
Defined.

(** ** Further properties of the identity store *)

Lemma DB_eq (db1 db2 : DB) :
  users db1 = users db2 → passwords db1 = passwords db2 → mentees db1 = mentees db2 →
  db1 = db2.
Proof. destruct db1, db2. simpl. by intros -> -> ->. Qed.

Lemma prefix_append (p s : string) :
  String.prefix p s = true ↔ ∃ r, s = p +:+ r.
Proof.
  revert s. induction p as [|a p IH]; intros s.
  - split; [intros _; by exists s | by destruct s].
  - destruct s as [|b s].
    + split; [done|]. by intros [r ?].
    + cbn [String.prefix]. destruct (ascii_dec a b) as [->|Hne].
      * rewrite IH. split; intros [r Hr]; exists r.
        -- rewrite Hr. reflexivity.
        -- change (String b p +:+ r) with (String b (p +:+ r)) in Hr. by injection Hr.
      * split; [done|]. intros [r Hr].
        change (String a p +:+ r) with (String a (p +:+ r)) in Hr.
        injection Hr as Hba _. congruence.
Qed.

Lemma deleteUser_run id db :
  deleteUser id db =
    (Resolved tt,
     {| users := delete id (users db); passwords := delete id (passwords db);
        mentees := mentees db |}).
Proof. done. Qed.

Section identity_more.
Context {services : Externals}.

Lemma verifyLogin_run mail password db :
  verifyLogin mail password db =
    (Resolved (if credential_ok db mail password
               then users db !! ("User#" +:+ toLowerCase mail)
               else None), db).
Proof.
  unfold verifyLogin, credential_ok.
  unfold mbind at 1. unfold Async_bind at 1. rewrite getUserPasswordByEmail_run.
  unfold email2UserId. destruct (passwords db !! _) as [hash|]; [|done].
  destruct (bcrypt_compare password hash); [|done].
  unfold getUserByEmail. by rewrite getUserById_run.
Qed.

(** After [createUser], [verifyLogin] with the email in any casing
    answers the created user exactly when [bcrypt.compare] accepts the
    attempt against the hash [createUser] stored, and absence otherwise. *)
Theorem createUser_then_verifyLogin
    (newUser : UnsavedUser) (password attempt mail : string) (db : DB) :
  toLowerCase mail = toLowerCase (email newUser) →
  ∃ user db',
    createUser newUser password db = (Resolved user, db')
    ∧ verifyLogin mail attempt db' =
        (Resolved (if bcrypt_compare attempt (bcrypt_hash password 10)
                   then Some user else None), db').
Proof.
  intros Hmail. rewrite createUser_run. eexists _, _. split; [reflexivity|].
  rewrite verifyLogin_run. unfold credential_ok, email2UserId. rewrite Hmail.
  cbn [users passwords user_id]. rewrite !lookup_insert_eq.
  by destruct (bcrypt_compare _ _).
Qed.

(** [createUser] always resolves: the read-back finds the record just
    written.  It puts the user and the hash under the id of the
    lowercased email, replacing what was stored there, and leaves every
    other user, every other hash and all mentee items as they were. *)
Theorem createUser_replaces_one_entry
    (newUser : UnsavedUser) (password : string) (db : DB) :
  ∃ user db',
    createUser newUser password db = (Resolved user, db')
    ∧ user_id user = "User#" +:+ toLowerCase (email newUser)
    ∧ users db' !! user_id user = Some user
    ∧ passwords db' !! user_id user = Some (bcrypt_hash password 10)
    ∧ (∀ k, k ≠ user_id user →
         users db' !! k = users db !! k ∧ passwords db' !! k = passwords db !! k)
    ∧ mentees db' = mentees db.
Proof.
  rewrite createUser_run. eexists _, _. split; [reflexivity|].
  cbn [users passwords mentees user_id]. rewrite !lookup_insert_eq.
  repeat split; try done; by rewrite lookup_insert_ne.
Qed.

(** [deleteUser] removes the user and the hash stored under the id and
    nothing else; afterwards the id is absent, and no email that
    lowercases to it can log in. *)
Theorem deleteUser_removes_user_and_hash (id : string) (db : DB) :
  ∃ db',
    deleteUser id db = (Resolved tt, db')
    ∧ getUserById id db' = (Resolved None, db')
    ∧ passwords db' !! id = None
    ∧ (∀ k, k ≠ id →
         users db' !! k = users db !! k ∧ passwords db' !! k = passwords db !! k)
    ∧ mentees db' = mentees db
    ∧ (∀ mail password, "User#" +:+ toLowerCase mail = id →
         verifyLogin mail password db' = (Resolved None, db')).
Proof.
  rewrite deleteUser_run. eexists. split; [reflexivity|].
  rewrite getUserById_run. cbn [users passwords mentees]. rewrite !lookup_delete_eq.
  split; [done|]. split; [done|]. split; [|split; [done|]].
  - intros k Hk. by rewrite !lookup_delete_ne.
  - intros mail password <-. rewrite verifyLogin_run.
    unfold credential_ok, email2UserId. cbn [users passwords].
    by rewrite lookup_delete_eq.
Qed.

(** [deleteUserByEmail] builds the id from the email as given.  Called
    with the lowercased email of a user [createUser] made, it removes
    the user; called with an email that has an upper-case letter, it
    leaves that user and its hash in place. *)
Theorem deleteUserByEmail_uses_email_verbatim
    (newUser : UnsavedUser) (password : string) (db : DB) :
  let lower := toLowerCase (email newUser) in
  let db1 := snd (createUser newUser password db) in
  (∀ mail, deleteUserByEmail mail db1 = deleteUser ("User#" +:+ mail) db1)
  ∧ users (snd (deleteUserByEmail lower db1)) !! ("User#" +:+ lower) = None
  ∧ passwords (snd (deleteUserByEmail lower db1)) !! ("User#" +:+ lower) = None
  ∧ (email newUser ≠ lower →
       users (snd (deleteUserByEmail (email newUser) db1)) !! ("User#" +:+ lower)
         = users db1 !! ("User#" +:+ lower)
       ∧ is_Some (users db1 !! ("User#" +:+ lower))
       ∧ passwords (snd (deleteUserByEmail (email newUser) db1)) !! ("User#" +:+ lower)
         = Some (bcrypt_hash password 10)).
Proof.
  intros lower db1. unfold db1. rewrite createUser_run. fold lower.
  split; [done|]. unfold deleteUserByEmail, email2UserId. rewrite !deleteUser_run.
  cbn [snd users passwords user_id]. rewrite !lookup_delete_eq.
  split; [done|]. split; [done|]. intros Hne.
  assert ("User#" +:+ email newUser ≠ "User#" +:+ lower) as Hid.
  { simpl. intros [= Heq]. done. }
  rewrite !lookup_delete_ne, !lookup_insert_eq by done. eauto.
Qed.


End identity_more.

(** [getUserListItems] lists exactly the stored users, one per id; when
    every user is stored under its own id, a user is listed exactly when
    [getUserById] of its id answers it. *)
Theorem getUserListItems_lists_stored_users (db : DB) :
  ∃ Items,
    getUserListItems db = (Resolved Items, db)
    ∧ length Items = size (users db)
    ∧ (∀ u, u ∈ Items ↔ ∃ k, users db !! k = Some u)
    ∧ (users_keyed_by_id db →
       ∀ u, u ∈ Items ↔ getUserById (user_id u) db = (Resolved (Some u), db)).
Proof.
  eexists. split; [reflexivity|].
  assert (∀ u, u ∈ (map_to_list (users db)).*2 ↔ ∃ k, users db !! k = Some u) as Hin.
  { intros u. rewrite list_elem_of_fmap. split.
    - intros ([k u'] & -> & Hk). apply elem_of_map_to_list in Hk. eauto.
    - intros (k & Hk). exists (k, u). split; [done|]. by apply elem_of_map_to_list. }
  split; [by rewrite length_fmap, length_map_to_list|]. split; [exact Hin|].
  intros Hwf u. rewrite Hin, getUserById_run. split.
  - intros (k & Hk). rewrite (Hwf k u Hk). by rewrite Hk.
  - intros [= Hk]. eauto.
Qed.

(** [isUserId] accepts exactly the strings [email2UserId] can build. *)
Theorem isUserId_iff_email2UserId (value : JsValue) :
  isUserId value = true ↔ ∃ mail, value = JsString (email2UserId mail).
Proof.
  unfold isUserId, email2UserId.
  destruct value as [| | | |s|]; simpl;
    try (split; [done | by intros [? ?]]).
  rewrite prefix_append. split; intros [r Hr]; exists r; [by rewrite Hr | by injection Hr].
Qed.

(** ** Further properties of the mentee and note store *)

Lemma select_elem (m : gmap (string * string) Item)
    (cond : string * string → Item → bool) (it : Item) :
  it ∈ (filter (λ kv, cond kv.1 kv.2 = true) (map_to_list m)).*2
  ↔ ∃ k, m !! k = Some it ∧ cond k it = true.
Proof.
  rewrite list_elem_of_fmap. split.
  - intros ([k it'] & -> & Hin). apply list_elem_of_filter in Hin as [Hc Hin].
    apply elem_of_map_to_list in Hin. eauto.
  - intros (k & Hk & Hc). exists (k, it). split; [done|].
    apply list_elem_of_filter. split; [done|]. by apply elem_of_map_to_list.
Qed.

Lemma id2pk_not_note_key (menteeId noteId : string) :
  id2pk menteeId ≠ id2NoteSk noteId.
Proof. unfold id2pk, id2NoteSk. change ("Mentee#" +:+ menteeId ≠ "Note#" +:+ noteId).
  intros Heq. apply (f_equal (λ s, String.get 0 s)) in Heq. discriminate Heq. Qed.

Lemma note_key_not_mentee_prefix (noteId : string) :
  begins_with (id2NoteSk noteId) "Mentee#" = false.
Proof. done. Qed.

Lemma note_key_has_note_prefix (noteId : string) :
  begins_with (id2NoteSk noteId) "Note#" = true.
Proof. apply prefix_append. by exists noteId. Qed.

Lemma mentee_key_has_mentee_prefix (menteeId : string) :
  begins_with (id2pk menteeId) "Mentee#" = true.
Proof. apply prefix_append. by exists menteeId. Qed.

Lemma mentee_key_not_note_prefix (menteeId : string) :
  begins_with (id2pk menteeId) "Note#" = false.
Proof. done. Qed.

Lemma updateMentee_run updatedMentee id db :
  updatedMentee !! "id" = Some id →
  updatedMentee !! "pk" = None → updatedMentee !! "sk" = None →
  let item := updatedMentee ∪ {[ "pk" := id2pk id; "sk" := id2pk id ]} in
  updateMentee updatedMentee db =
    (Resolved item, set_mentees <[(id2pk id, id2pk id) := item]> db).
Proof.
  intros Hid Hpk Hsk item. unfold updateMentee, mentees_put. rewrite Hid.
  cbn [js_template default from_option]. change (Datatypes.id id) with id. fold item.
  assert (item !! "pk" = Some (id2pk id)) as ->.
  { unfold item. rewrite lookup_union_r by done. by rewrite lookup_insert_eq. }
  assert (item !! "sk" = Some (id2pk id)) as ->.
  { unfold item. rewrite lookup_union_r by done.
    rewrite lookup_insert_ne by done. by rewrite lookup_singleton_eq. }
  done.
Qed.

(** [updateMentee] replaces the whole item of the mentee: what is stored
    afterwards is the argument plus the two key attributes, so an
    attribute the argument lacks is gone whatever was stored before,
    and the email is stored as given.  No other item changes. *)
Theorem updateMentee_replaces_whole_item (updatedMentee : Item) (id : string) (db : DB) :
  updatedMentee !! "id" = Some id →
  updatedMentee !! "pk" = None → updatedMentee !! "sk" = None →
  ∃ stored db',
    updateMentee updatedMentee db = (Resolved stored, db')
    ∧ getMenteeById id db' = (Resolved (Some stored), db')
    ∧ stored !! "pk" = Some ("Mentee#" +:+ id)
    ∧ stored !! "sk" = Some ("Mentee#" +:+ id)
    ∧ (∀ a, a ≠ "pk" → a ≠ "sk" → stored !! a = updatedMentee !! a)
    ∧ (∀ k, k ≠ ("Mentee#" +:+ id, "Mentee#" +:+ id) →
         mentees db' !! k = mentees db !! k)
    ∧ users db' = users db ∧ passwords db' = passwords db.
Proof.
  intros Hid Hpk Hsk. rewrite (updateMentee_run _ id) by done.
  eexists _, _. split; [reflexivity|]. rewrite getMenteeById_run.
  fold (id2pk id). cbn [mentees users passwords set_mentees].
  rewrite lookup_insert_eq. split; [done|].
  split; [rewrite lookup_union_r by done; by rewrite lookup_insert_eq|].
  split; [rewrite lookup_union_r by done; rewrite lookup_insert_ne by done;
          by rewrite lookup_singleton_eq|].
  split; [|split; [|done]].
  - intros a Hapk Hask. rewrite lookup_union.
    rewrite lookup_insert_ne by done. rewrite lookup_singleton_ne by done.
    by destruct (updatedMentee !! a).
  - intros k Hk. by rewrite lookup_insert_ne.
Qed.

Section notes.
Context {services : Externals}.

Lemma createNote_run id now menteeId content authorId db :
  let note : Item :=
    {[ "pk" := id2pk menteeId; "sk" := id2NoteSk id; "id" := id;
       "content" := content; "authorId" := authorId;
       "createdAt" := toISOString now ]} in
  createNote id now menteeId content authorId db =
    (Resolved note, set_mentees <[(id2pk menteeId, id2NoteSk id) := note]> db).
Proof.
  intros note. unfold createNote, mentees_put. fold note.
  assert (note !! "pk" = Some (id2pk menteeId)) as -> by apply lookup_insert_eq.
  assert (note !! "sk" = Some (id2NoteSk id)) as ->.
  { unfold note. rewrite lookup_insert_ne by done. apply lookup_insert_eq. }
  done.
Qed.

(** After [createNote], [getNote] of the same ids answers the note just
    written, with the given content and author, the clock reading as
    creation time and no update time; [getNotesOfMentee] lists it; no
    other item changes. *)
Theorem createNote_then_getNote
    (id : string) (now : Z) (menteeId content authorId : string) (db : DB) :
  ∃ note db',
    createNote id now menteeId content authorId db = (Resolved note, db')
    ∧ getNote menteeId id db' = (Resolved (Some note), db')
    ∧ note !! "id" = Some id
    ∧ note !! "content" = Some content
    ∧ note !! "authorId" = Some authorId
    ∧ note !! "createdAt" = Some (toISOString now)
    ∧ note !! "updatedAt" = None
    ∧ (∃ notes, getNotesOfMentee menteeId db' = (Resolved notes, db') ∧ note ∈ notes)
    ∧ (∀ k, k ≠ ("Mentee#" +:+ menteeId, "Note#" +:+ id) →
         mentees db' !! k = mentees db !! k)
    ∧ users db' = users db ∧ passwords db' = passwords db.
Proof.
  rewrite createNote_run. eexists _, _. split; [reflexivity|].
  unfold getNote. async. cbn [mentees users passwords set_mentees].
  rewrite lookup_insert_eq. split; [done|].
  split; [by rewrite !lookup_insert_ne, lookup_insert_eq by done|].
  split; [by rewrite !lookup_insert_ne, lookup_insert_eq by done|].
  split; [by rewrite !lookup_insert_ne, lookup_insert_eq by done|].
  split; [by rewrite !lookup_insert_ne, lookup_singleton_eq by done|].
  split; [by rewrite !lookup_insert_ne, lookup_singleton_ne by done|].
  split; [|split; [|done]].
  - eexists. split; [reflexivity|].
    pose proof (select_elem
      (<[(id2pk menteeId, id2NoteSk id) :=
           {[ "pk" := id2pk menteeId; "sk" := id2NoteSk id; "id" := id;
              "content" := content; "authorId" := authorId;
              "createdAt" := toISOString now ]}]> (mentees db))
      (λ k _, String.eqb k.1 (id2pk menteeId) && begins_with k.2 "Note#")) as Hsel.
    cbv beta in Hsel. apply Hsel. exists (id2pk menteeId, id2NoteSk id).
    split; [by rewrite lookup_insert_eq|]. cbn [fst snd].
    by rewrite String.eqb_refl, note_key_has_note_prefix.
  - intros k Hk. by rewrite lookup_insert_ne.
Qed.

(** [updateNote] on a stored note sets the content and stamps the update
    time with the clock reading; the note's other attributes (id, author,
    creation time) and every other item stay as they were. *)
Theorem updateNote_sets_content_and_stamp
    (now : Z) (menteeId noteId content : string) (db : DB) (before : Item) :
  mentees db !! ("Mentee#" +:+ menteeId, "Note#" +:+ noteId) = Some before →
  ∃ after db',
    updateNote now menteeId noteId content db = (Resolved tt, db')
    ∧ getNote menteeId noteId db' = (Resolved (Some after), db')
    ∧ after !! "content" = Some content
    ∧ after !! "updatedAt" = Some (toISOString now)
    ∧ (∀ a, a ≠ "content" → a ≠ "updatedAt" → after !! a = before !! a)
    ∧ (∀ k, k ≠ ("Mentee#" +:+ menteeId, "Note#" +:+ noteId) →
         mentees db' !! k = mentees db !! k)
    ∧ users db' = users db ∧ passwords db' = passwords db.
Proof.
  intros Hbefore. unfold updateNote, getNote. async.
  fold (id2pk menteeId) in Hbefore |- *. fold (id2NoteSk noteId) in Hbefore |- *.
  eexists _, _. split; [reflexivity|].
  cbn [mentees users passwords set_mentees foldr fst snd].
  rewrite lookup_insert_eq, Hbefore. cbn [default].
  split; [done|]. split; [by rewrite lookup_insert_eq|].
  split; [by rewrite lookup_insert_ne, lookup_insert_eq by done|].
  split; [|split; [|done]].
  - intros a Hc Hu. by rewrite !lookup_insert_ne.
  - intros k Hk. by rewrite lookup_insert_ne.
Qed.

(** [updateNote] for a note id nothing is stored under does not fail:
    the store creates an item from the key and the two attributes set,
    so [getNote] then answers an item that has a content and an update
    time but no id, no author and no creation time. *)
Theorem updateNote_creates_missing_note
    (now : Z) (menteeId noteId content : string) (db : DB) :
  mentees db !! ("Mentee#" +:+ menteeId, "Note#" +:+ noteId) = None →
  ∃ created db',
    updateNote now menteeId noteId content db = (Resolved tt, db')
    ∧ getNote menteeId noteId db' = (Resolved (Some created), db')
    ∧ created !! "content" = Some content
    ∧ created !! "updatedAt" = Some (toISOString now)
    ∧ created !! "id" = None
    ∧ created !! "authorId" = None
    ∧ created !! "createdAt" = None.
Proof.
  intros Hmissing. unfold updateNote, getNote. async.
  fold (id2pk menteeId) in Hmissing |- *. fold (id2NoteSk noteId) in Hmissing |- *.
  eexists _, _. split; [reflexivity|].
  cbn [mentees set_mentees foldr fst snd].
  rewrite lookup_insert_eq, Hmissing. cbn [default].
  split; [done|]. split; [by rewrite lookup_insert_eq|].
  split; [by rewrite lookup_insert_ne, lookup_insert_eq by done|].
  repeat split; by rewrite !lookup_insert_ne, lookup_singleton_ne by done.
Qed.

End notes.

(** [deleteNote] removes the one note: [getNote] then answers absence,
    the mentee's own record and every other item stay, and deleting a
    note that is not stored leaves the store exactly as it was. *)
Theorem deleteNote_removes_one_note (menteeId noteId : string) (db : DB) :
  ∃ db',
    deleteNote menteeId noteId db = (Resolved tt, db')
    ∧ getNote menteeId noteId db' = (Resolved None, db')
    ∧ getMenteeById menteeId db' = (fst (getMenteeById menteeId db), db')
    ∧ (∀ k, k ≠ ("Mentee#" +:+ menteeId, "Note#" +:+ noteId) →
         mentees db' !! k = mentees db !! k)
    ∧ users db' = users db ∧ passwords db' = passwords db
    ∧ (mentees db !! ("Mentee#" +:+ menteeId, "Note#" +:+ noteId) = None → db' = db).
Proof.
  unfold deleteNote, getNote. async. eexists. split; [reflexivity|].
  rewrite !getMenteeById_run. cbn [mentees users passwords set_mentees fst].
  rewrite lookup_delete_eq. split; [done|].
  split.
  { rewrite lookup_delete_ne; [done|]. intros [=]. }
  split; [intros k Hk; by rewrite lookup_delete_ne|].
  split; [done|]. split; [done|].
  intros Hnone. apply DB_eq; cbn [mentees users passwords set_mentees]; try done.
  by apply delete_id.
Qed.

(** Two stores that agree under every sort key beginning ["Mentee#"]
    give [getAllMentees] the same items. *)
Lemma getAllMentees_agree (db db' : DB) :
  (∀ k, begins_with k.2 "Mentee#" = true → mentees db' !! k = mentees db !! k) →
  ∃ Items Items',
    getAllMentees db = (Resolved Items, db)
    ∧ getAllMentees db' = (Resolved Items', db')
    ∧ ∀ it, it ∈ Items' ↔ it ∈ Items.
Proof.
  intros Hagree. eexists _, _. split; [reflexivity|]. split; [reflexivity|].
  intros it.
  pose proof (select_elem (mentees db) (λ k _, begins_with k.2 "Mentee#") it) as H1.
  pose proof (select_elem (mentees db') (λ k _, begins_with k.2 "Mentee#") it) as H2.
  cbv beta in H1, H2. rewrite H1, H2.
  split; intros (k & Hk & Hc); exists k; (split; [|done]).
  - by rewrite <- Hagree.
  - by rewrite Hagree.
Qed.

(** [getAllMentees] lists exactly the items stored under a sort key that
    begins with ["Mentee#"]; in particular every mentee [getMenteeById]
    can fetch is listed. *)
Theorem getAllMentees_lists_mentee_keys (db : DB) :
  ∃ Items,
    getAllMentees db = (Resolved Items, db)
    ∧ (∀ it, it ∈ Items
         ↔ ∃ pk sk, mentees db !! (pk, sk) = Some it ∧ begins_with sk "Mentee#" = true)
    ∧ (∀ menteeId mentee,
         getMenteeById menteeId db = (Resolved (Some mentee), db) → mentee ∈ Items).
Proof.
  eexists. split; [reflexivity|].
  assert (∀ it, it ∈ (filter (λ kv : string * string * Item,
              begins_with kv.1.2 "Mentee#" = true) (map_to_list (mentees db))).*2
            ↔ ∃ pk sk, mentees db !! (pk, sk) = Some it
                       ∧ begins_with sk "Mentee#" = true) as Hin.
  { intros it.
    pose proof (select_elem (mentees db) (λ k _, begins_with k.2 "Mentee#") it) as Hsel.
    cbv beta in Hsel. rewrite Hsel. split.
    - intros ([pk sk] & Hk & Hc). eauto.
    - intros (pk & sk & Hk & Hc). by exists (pk, sk). }
  split; [exact Hin|].
  intros menteeId mentee. rewrite getMenteeById_run. intros [= Hk].
  apply Hin. exists (id2pk menteeId), (id2pk menteeId).
  split; [done | apply mentee_key_has_mentee_prefix].
Qed.

Section listings.
Context {services : Externals}.

(** Writing, editing or deleting a note never changes what
    [getAllMentees] lists. *)
Theorem note_operations_keep_getAllMentees (menteeId noteId : string) (db : DB) :
  ∃ Items, getAllMentees db = (Resolved Items, db)
  ∧ (∀ now content authorId,
       ∃ Items', getAllMentees (snd (createNote noteId now menteeId content authorId db))
                   = (Resolved Items',
                      snd (createNote noteId now menteeId content authorId db))
         ∧ ∀ it, it ∈ Items' ↔ it ∈ Items)
  ∧ (∀ now content,
       ∃ Items', getAllMentees (snd (updateNote now menteeId noteId content db))
                   = (Resolved Items', snd (updateNote now menteeId noteId content db))
         ∧ ∀ it, it ∈ Items' ↔ it ∈ Items)
  ∧ (∃ Items', getAllMentees (snd (deleteNote menteeId noteId db))
                   = (Resolved Items', snd (deleteNote menteeId noteId db))
         ∧ ∀ it, it ∈ Items' ↔ it ∈ Items).
Proof.
  assert (∀ db', (∀ k, k ≠ (id2pk menteeId, id2NoteSk noteId) →
                       mentees db' !! k = mentees db !! k) →
            ∃ Items', getAllMentees db' = (Resolved Items', db')
              ∧ ∀ it, it ∈ Items' ↔ it ∈ (filter (λ kv : string * string * Item,
                  begins_with kv.1.2 "Mentee#" = true) (map_to_list (mentees db))).*2)
    as Hframe.
  { intros db' Hsame.
    destruct (getAllMentees_agree db db') as (Items & Items' & H1 & H2 & Heq).
    - intros [pk sk] Hc. apply Hsame. intros [= -> ->]. cbn [snd] in Hc.
      by rewrite note_key_not_mentee_prefix in Hc.
    - exists Items'. split; [done|]. injection H1 as <-. exact Heq. }
  eexists. split; [reflexivity|]. split; [|split].
  - intros now content authorId. apply Hframe. rewrite createNote_run.
    intros k Hk. cbn [snd mentees set_mentees]. by rewrite lookup_insert_ne.
  - intros now content. apply Hframe. intros k Hk.
    unfold updateNote. async. cbn [snd mentees set_mentees]. by rewrite lookup_insert_ne.
  - apply Hframe. intros k Hk.
    unfold deleteNote. async. cbn [snd mentees set_mentees]. by rewrite lookup_delete_ne.
Qed.

(** The mentee [createMentee] stores is listed for the buddy named in
    the input: [getMenteeListItems] of that buddy contains it, and
    [getMenteeCount] answers the length of that list, at least one. *)
Theorem createMentee_listed_for_buddy
    (id : string) (newMentee : Item) (mail buddyId : string) (db : DB) :
  newMentee !! "email" = Some mail →
  newMentee !! "buddyId" = Some buddyId →
  ∃ Items,
    getMenteeListItems buddyId (snd (createMentee id newMentee db))
      = (Resolved Items, snd (createMentee id newMentee db))
    ∧ getMenteeCount buddyId (snd (createMentee id newMentee db))
      = (Resolved (length Items), snd (createMentee id newMentee db))
    ∧ 0 < length Items
    ∧ new_mentee_item id (toLowerCase mail) newMentee ∈ Items.
Proof.
  intros Hmail Hbuddy.
  destruct (createMentee_put id newMentee mail db Hmail) as (pk & sk & Hput).
  eexists. split; [reflexivity|]. split; [reflexivity|].
  assert (new_mentee_item id (toLowerCase mail) newMentee
            ∈ (filter (λ kv : string * string * Item,
                 bool_decide (kv.2 !! "buddyId" = Some buddyId) = true)
                 (map_to_list (mentees (snd (createMentee id newMentee db))))).*2) as Hin.
  { pose proof (select_elem (mentees (snd (createMentee id newMentee db)))
      (λ _ it, bool_decide (it !! "buddyId" = Some buddyId))
      (new_mentee_item id (toLowerCase mail) newMentee)) as Hsel.
    cbv beta in Hsel. apply Hsel. exists (pk, sk).
    split; [rewrite Hput; by rewrite lookup_insert_eq|].
    apply bool_decide_eq_true. unfold new_mentee_item.
    rewrite lookup_insert_ne by done. by apply lookup_union_Some_l. }
  split; [|exact Hin].
  destruct (filter _ _).*2; [by apply elem_of_nil in Hin | simpl; lia].
Qed.

(** Once a mentee is created for a buddy, [canUserDeleteUser] refuses
    to delete that buddy with the reason of the mentee rule, whenever
    the three rules before it pass. *)
Theorem createMentee_blocks_buddy_deletion
    (actor target : User) (id : string) (newMentee : Item) (mail : string) (db : DB) :
  newMentee !! "email" = Some mail →
  newMentee !! "buddyId" = Some (user_id target) →
  user_id actor ≠ user_id target →
  role target ≠ ADMIN →
  role_rank (role target) < role_rank (role actor) →
  fst (canUserDeleteUser actor target (snd (createMentee id newMentee db)))
    = Resolved (deny "You can not delete a user with active mentees").
Proof.
  intros Hmail Hbuddy Hid Hadmin Hrank.
  destruct (createMentee_listed_for_buddy id newMentee mail (user_id target) db
              Hmail Hbuddy) as (Items & Hlist & _ & Hpos & _).
  rewrite canUserDeleteUser_unfold. cbn [fst].
  apply String.eqb_neq in Hid. rewrite Hid.
  destruct (role_eqb (role target) ADMIN) eqn:Ha;
    [by apply role_eqb_eq in Ha|].
  apply role_gt_rank in Hrank. rewrite Hrank. cbn [negb].
  unfold getMenteeListItems in Hlist. async. injection Hlist as <-.
  by destruct (Nat.ltb_spec 0 (length (filter (λ kv : string * string * Item,
        bool_decide (kv.2 !! "buddyId" = Some (user_id target)) = true)
        (map_to_list (mentees (snd (createMentee id newMentee db))))).*2));
    [|lia].
Qed.

End listings.

(** [canUserMutateMentee] holds exactly for the roles above BUDDY, and
    whoever may change mentees may change every note. *)
Theorem canUserMutateMentee_above_buddy (user : User) :
  (canUserMutateMentee user = true ↔ role_rank BUDDY < role_rank (role user))
  ∧ (canUserMutateMentee user = true →
       ∀ note, canUserMutateNote user note = true)
  ∧ (canUserMutateMentee user = false →
       ∀ note, canUserMutateNote user note = true ↔ user_id user = authorId note).
Proof.
  unfold canUserMutateMentee, canUserMutateNote. split; [|split].
  - destruct (role user); simpl; split; (done || lia).
  - intros Hmay note. rewrite Hmay. apply orb_true_r.
  - intros Hmay note. rewrite Hmay, orb_false_r. apply String.eqb_eq.
Qed.

Section note_keys.
Context {services : Externals}.

(** The operations of the mentee store keep every note of a partition
    under the sort key of its own id: creating a mentee from a typed
    input, replacing a mentee by an item that names its id and carries
    no [pk] or [sk] attribute, setting a status, writing a note, editing
    a stored note, deleting a note and deleting a mentee.  (An argument
    of [updateMentee] that carries [pk] or [sk] is stored under those,
    and is not covered.) *)
Theorem notes_keyed_by_id_kept (db : DB) (m : string) :
  notes_keyed_by_id db m →
  (∀ id newMentee mail,
     newMentee !! "email" = Some mail → unsaved_mentee newMentee →
     notes_keyed_by_id (snd (createMentee id newMentee db)) m)
  ∧ (∀ updatedMentee id,
     updatedMentee !! "id" = Some id →
     updatedMentee !! "pk" = None → updatedMentee !! "sk" = None →
     notes_keyed_by_id (snd (updateMentee updatedMentee db)) m)
  ∧ (∀ menteeId newStatus,
     notes_keyed_by_id (snd (updateMenteeStatus menteeId newStatus db)) m)
  ∧ (∀ id now menteeId content authorId,
     notes_keyed_by_id (snd (createNote id now menteeId content authorId db)) m)
  ∧ (∀ now menteeId noteId content,
     is_Some (mentees db !! (id2pk menteeId, id2NoteSk noteId)) →
     notes_keyed_by_id (snd (updateNote now menteeId noteId content db)) m)
  ∧ (∀ menteeId noteId, notes_keyed_by_id (snd (deleteNote menteeId noteId db)) m)
  ∧ (∀ menteeId, notes_keyed_by_id (snd (deleteMentee menteeId db)) m).
Proof.
  intros Hwf.
  assert (∀ menteeId item,
      notes_keyed_by_id (set_mentees <[(id2pk menteeId, id2pk menteeId) := item]> db) m)
    as Hown.
  { intros menteeId item sk it. cbn [mentees set_mentees].
    intros [[[= _ <-] _]|[_ Hk]]%lookup_insert_Some Hpre.
    - by rewrite mentee_key_not_note_prefix in Hpre.
    - by apply Hwf. }
  split; [|split; [|split; [|split; [|split; [|split]]]]].
  - intros id newMentee mail Hmail (_ & Hpk & Hsk & Hid & Hst).
    rewrite (createMentee_run id newMentee mail db) by done. apply Hown.
  - intros updatedMentee id Hid Hpk Hsk.
    rewrite (updateMentee_run updatedMentee id db) by done. apply Hown.
  - intros menteeId newStatus. unfold updateMenteeStatus. async. apply Hown.
  - intros id now menteeId content authorId. by apply createNote_keeps_notes_keyed.
  - intros now menteeId noteId content [before Hbefore] sk it.
    unfold updateNote. async. cbn [snd mentees set_mentees foldr fst].
    rewrite Hbefore. cbn [default from_option].
    intros [[[= Hm <-] <-]|[_ Hk]]%lookup_insert_Some Hpre.
    + change (menteeId = m) in Hm. subst m. change (id before) with before.
      rewrite !lookup_insert_ne by done.
      by apply (Hwf (id2NoteSk noteId) before).
    + by apply Hwf.
  - intros menteeId noteId sk it. unfold deleteNote. async.
    cbn [snd mentees set_mentees]. intros [_ Hk]%lookup_delete_Some. by apply Hwf.
  - intros menteeId sk it. rewrite deleteMentee_run.
    destruct (Promise_all_deletes
      ((id2pk menteeId, id2pk menteeId)
       :: map (λ note : Item, (id2pk menteeId, id2NoteSk (js_template (note !! "id"))))
            (filter (λ kv : string * string * Item,
               String.eqb kv.1.1 (id2pk menteeId) && begins_with kv.1.2 "Note#" = true)
               (map_to_list (mentees db))).*2) db) as (db' & -> & _ & _ & Hm).
    cbn [snd]. rewrite Hm. case_decide; [done|]. by apply Hwf.
Qed.

End note_keys.

(** [updateMenteeStatus] for an id without a mentee record does not
    fail: the store creates an item that has the two key attributes and
    the status and nothing else, and [getMenteeById] answers it from
    then on. *)
Theorem updateMenteeStatus_creates_missing_mentee
    (menteeId newStatus : string) (db : DB) :
  mentees db !! ("Mentee#" +:+ menteeId, "Mentee#" +:+ menteeId) = None →
  ∃ created db',
    updateMenteeStatus menteeId newStatus db = (Resolved tt, db')
    ∧ getMenteeById menteeId db' = (Resolved (Some created), db')
    ∧ created !! "status" = Some newStatus
    ∧ created !! "pk" = Some ("Mentee#" +:+ menteeId)
    ∧ created !! "sk" = Some ("Mentee#" +:+ menteeId)
    ∧ (∀ a, a ≠ "status" → a ≠ "pk" → a ≠ "sk" → created !! a = None).
Proof.
  intros Hmissing. unfold updateMenteeStatus. async.
  fold (id2pk menteeId) in Hmissing |- *.
  eexists _, _. split; [reflexivity|]. rewrite getMenteeById_run.
  cbn [mentees set_mentees foldr fst snd]. rewrite lookup_insert_eq, Hmissing.
  cbn [default from_option]. split; [done|].
  split; [by rewrite lookup_insert_eq|].
  split; [by rewrite lookup_insert_ne, lookup_insert_eq by done|].
  split; [by rewrite !lookup_insert_ne, lookup_singleton_eq by done|].
  intros a Hst Hpk Hsk. by rewrite !lookup_insert_ne, lookup_singleton_ne by done.
Qed.

(** Setting a status twice leaves the store as setting the last status
    once does. *)
Theorem updateMenteeStatus_last_write_wins (menteeId s1 s2 : string) (db : DB) :
  snd (updateMenteeStatus menteeId s2 (snd (updateMenteeStatus menteeId s1 db)))
    = snd (updateMenteeStatus menteeId s2 db).
Proof.
  unfold updateMenteeStatus. async. cbn [snd].
  apply DB_eq; cbn [mentees users passwords set_mentees foldr fst snd]; try done.
  rewrite lookup_insert_eq. cbn [default from_option]. unfold id.
  by rewrite !insert_insert_eq.
Qed.

(** [deleteMentee] of an id with nothing stored in its partition
    resolves and leaves the store exactly as it was. *)
Theorem deleteMentee_of_unknown_id (menteeId : string) (db : DB) :
  (∀ sk, mentees db !! ("Mentee#" +:+ menteeId, sk) = None) →
  deleteMentee menteeId db = (Resolved tt, db).
Proof.
  intros Hnone. rewrite deleteMentee_run.
  assert ((filter (λ kv : string * string * Item,
             String.eqb kv.1.1 (id2pk menteeId) && begins_with kv.1.2 "Note#" = true)
             (map_to_list (mentees db))).*2 = []) as ->.
  { pose proof (select_empty (mentees db)
      (λ k _, String.eqb k.1 (id2pk menteeId) && begins_with k.2 "Note#")) as Hsel.
    cbv beta in Hsel. apply Hsel. intros [pk sk] it Hk. cbn [fst snd].
    destruct (String.eqb_spec pk (id2pk menteeId)) as [->|]; [|done].
    unfold id2pk in Hk. by rewrite Hnone in Hk. }
  cbn [map Promise_all]. async. f_equal.
  apply DB_eq; cbn [mentees users passwords set_mentees fst snd]; try done.
  apply delete_id. apply Hnone.
Qed.

(** ** The avatar component *)

Lemma string_length_append (a b : string) :
  String.length (a +:+ b) = String.length a + String.length b.
Proof.
  induction a as [|c a IH]; [done|].
  change (String c a +:+ b) with (String c (a +:+ b)). simpl. by rewrite IH.
Qed.

Lemma all_chars_append (p : ascii → bool) (a b : string) :
  all_chars p (a +:+ b) = all_chars p a && all_chars p b.
Proof.
  induction a as [|c a IH]; [done|].
  change (String c a +:+ b) with (String c (a +:+ b)). simpl.
  by rewrite IH, andb_assoc.
Qed.

Lemma js_and_255_byte (a : Z) : (0 ≤ js_and a 255 < 256)%Z.
Proof.
  unfold js_and. change (to_int32 255) with (Z.ones 8).
  rewrite Z.land_ones by lia. apply Z.mod_pos_bound. lia.
Qed.

Lemma colour_byte_two_hex_digits (v : Z) :
  (0 ≤ v < 256)%Z →
  String.length (slice_last 2 ("00" +:+ toString16 v)) = 2
  ∧ all_chars is_hex_digit (slice_last 2 ("00" +:+ toString16 v)) = true.
Proof.
  intros Hv.
  assert (forallb (λ n,
            Nat.eqb (String.length (slice_last 2 ("00" +:+ toString16 (Z.of_nat n)))) 2
            && all_chars is_hex_digit (slice_last 2 ("00" +:+ toString16 (Z.of_nat n))))
            (seq 0 256) = true) as Hall by (vm_compute; reflexivity).
  rewrite forallb_forall in Hall.
  assert (In (Z.to_nat v) (seq 0 256)) as Hin by (apply in_seq; lia).
  apply Hall in Hin. rewrite Z2Nat.id in Hin by lia.
  apply andb_true_iff in Hin as [Hlen Hhex].
  by apply Nat.eqb_eq in Hlen.
Qed.

(** [stringToColor] always answers a colour of the form [#rrggbb]: a
    hash sign followed by exactly six lower-case hexadecimal digits,
    whatever the string. *)
Theorem stringToColor_is_hex_colour (s : string) :
  ∃ digits,
    avatar.stringToColor s = String "#" digits
    ∧ String.length digits = 6
    ∧ all_chars is_hex_digit digits = true.
Proof.
  unfold avatar.stringToColor. cbn [foldl].
  set (hash := avatar.hash_from s 0).
  destruct (colour_byte_two_hex_digits _ (js_and_255_byte (js_sar hash (0 * 8))))
    as [L0 H0].
  destruct (colour_byte_two_hex_digits _ (js_and_255_byte (js_sar hash (1 * 8))))
    as [L1 H1].
  destruct (colour_byte_two_hex_digits _ (js_and_255_byte (js_sar hash (2 * 8))))
    as [L2 H2].
  eexists. split; [reflexivity|].
  rewrite !string_length_append, !all_chars_append, L0, L1, L2, H0, H1, H2. done.
Qed.

Lemma js_split_nonempty (sep : ascii) (s : string) : js_split sep s ≠ [].
Proof.
  destruct s as [|c s]; [done|]. simpl.
  destruct (Ascii.eqb c sep); [done|]. by destruct (js_split sep s).
Qed.

Lemma js_split_no_sep (sep : ascii) (s : string) :
  all_chars (λ c, negb (Ascii.eqb c sep)) s = true → js_split sep s = [s].
Proof.
  induction s as [|c s IH]; [done|]. simpl.
  intros [Hc Hs]%andb_true_iff. apply negb_true_iff in Hc. rewrite Hc.
  by rewrite (IH Hs).
Qed.

Lemma js_split_at_sep (sep : ascii) (p r : string) :
  all_chars (λ c, negb (Ascii.eqb c sep)) p = true →
  js_split sep (p +:+ String sep r) = p :: js_split sep r.
Proof.
  induction p as [|c p IH].
  - intros _. change ("" +:+ String sep r) with (String sep r). simpl.
    by rewrite Ascii.eqb_refl.
  - change (String c p +:+ String sep r) with (String c (p +:+ String sep r)).
    simpl. intros [Hc Hp]%andb_true_iff. apply negb_true_iff in Hc.
    by rewrite Hc, (IH Hp).
Qed.

Lemma js_split_head (sep b : ascii) (rest : string) :
  Ascii.eqb b sep = false →
  ∃ piece pieces, js_split sep (String b rest) = String b piece :: pieces.
Proof.
  intros Hb. simpl. rewrite Hb.
  destruct (js_split sep rest) as [|piece pieces] eqn:E; eauto.
Qed.

(** [stringAvatar] rejects with a [TypeError] every name without a
    space; for a name whose first word is not empty and is followed by
    one space and a character that is not a space, it answers the
    colour of the name and the two initials. *)
Theorem stringAvatar_initials :
  (∀ name, no_space name = true → avatar.stringAvatar name = Rejected "TypeError")
  ∧ (∀ (a b : ascii) (first rest : string),
       no_space (String a first) = true → b ≠ " "%char →
       avatar.stringAvatar (String a first +:+ " " +:+ String b rest)
         = Resolved {| avatar.bgcolor :=
                         avatar.stringToColor
                           (String a first +:+ " " +:+ String b rest);
                       avatar.children := String a (String b "") |}).
Proof.
  unfold no_space. split.
  - intros name Hname. unfold avatar.stringAvatar.
    by rewrite (js_split_no_sep " " name Hname).
  - intros a b first rest Hfirst Hb. unfold avatar.stringAvatar.
    change (" " +:+ String b rest) with (String " " (String b rest)).
    rewrite (js_split_at_sep " " (String a first) (String b rest) Hfirst).
    destruct (js_split_head " " b rest) as (piece & pieces & ->).
    { by apply Ascii.eqb_neq. }
    done.
Qed.

(** ** The mentee edit page *)

(** The loader of the edit page serves a mentee only to a user who may
    change mentees: any other user is redirected to the dashboard
    whatever the store holds; a user who may gets the stored mentee, and
    a rejection when the id is missing or no mentee is stored under
    it.  The store is never changed. *)
Theorem mentee_edit_loader_gate (user : User) (menteeId : option string) (db : DB) :
  (canUserMutateMentee user = false →
     mentee_edit.loader user menteeId db
       = (Resolved (mentee_edit.redirect "/dashboard"), db))
  ∧ (canUserMutateMentee user = true →
     ∀ id, menteeId = Some id → id ≠ "" →
     mentee_edit.loader user menteeId db
       = (match mentees db !! ("Mentee#" +:+ id, "Mentee#" +:+ id) with
          | Some mentee => Resolved (mentee_edit.json_mentee mentee)
          | None => Rejected "Invariant failed: Mentee not found"
          end, db))
  ∧ (canUserMutateMentee user = true →
     menteeId = None ∨ menteeId = Some "" →
     mentee_edit.loader user menteeId db
       = (Rejected "Invariant failed: Mentee ID is required", db)).
Proof.
  unfold canUserMutateMentee, mentee_edit.loader. split; [|split].
  - intros Hbuddy. apply negb_false_iff in Hbuddy. by rewrite Hbuddy.
  - intros Hmay id -> Hid. apply negb_true_iff in Hmay. rewrite Hmay.
    destruct id as [|c id]; [done|]. cbn [js_truthy invariant].
    async. rewrite getMenteeById_run.
    fold (id2pk (String c id)). by destruct (mentees db !! _).
  - intros Hmay Hid. apply negb_true_iff in Hmay. rewrite Hmay.
    by destruct Hid as [-> | ->].
Qed.

Section schema_facts.
Context {services : Externals}.

(** The date check of the edit form lets the two dates pass when either
    is empty, whatever the other one is; when both are non-empty it
    passes exactly when both dates parse, the end is strictly after the
    clock reading and not before the start, and then the end date also
    passes the activity test of [getBuddyById] at the same clock
    reading. *)
Theorem agreement_window_ok_spec (today : Z) (startDate endDate : string) :
  (startDate = "" ∨ endDate = "" →
     mentee_edit.agreement_window_ok today startDate endDate = true)
  ∧ (startDate ≠ "" → endDate ≠ "" →
     (mentee_edit.agreement_window_ok today startDate endDate = true
      ↔ ∃ s e, Date_parse startDate = Some s ∧ Date_parse endDate = Some e
               ∧ (today < e)%Z ∧ (s ≤ e)%Z))
  ∧ (startDate ≠ "" → endDate ≠ "" →
     mentee_edit.agreement_window_ok today startDate endDate = true →
     date_gt (Date_parse endDate) today = true).
Proof.
  unfold mentee_edit.agreement_window_ok. split; [|split].
  - intros [-> | ->]; [done|]. by rewrite String.eqb_refl, orb_true_r.
  - intros Hs He. apply String.eqb_neq in Hs, He. rewrite Hs, He. cbn [orb].
    unfold date_gt, mentee_edit.date_ge.
    destruct (Date_parse endDate) as [e|]; [|split; [done | by intros (? & ? & _ & ? & _)]].
    destruct (Date_parse startDate) as [s|].
    + rewrite andb_true_iff, Z.ltb_lt, Z.leb_le. split.
      * intros [? ?]. by exists s, e.
      * by intros (s' & e' & [= <-] & [= <-] & ? & ?).
    + rewrite andb_false_r. split; [done | by intros (? & ? & ? & _)].
  - intros Hs He. apply String.eqb_neq in Hs, He. rewrite Hs, He. cbn [orb].
    by intros [? _]%andb_true_iff.
Qed.

End schema_facts.

(** ** The further properties at concrete inputs *)

Lemma createUser_then_verifyLogin_witness :
  ∃ user db',
    createUser (services := demo_externals) mixed_case_user "s3cret" empty_db
      = (Resolved user, db')
    ∧ verifyLogin (services := demo_externals) "ADA@example.com" "s3cret" db' =
        (Resolved (if bcrypt_compare (Externals := demo_externals) "s3cret"
                        (bcrypt_hash (Externals := demo_externals) "s3cret" 10)
                   then Some user else None), db').
Proof.
  apply (createUser_then_verifyLogin (services := demo_externals)
           mixed_case_user "s3cret" "s3cret" "ADA@example.com" empty_db).
  reflexivity.
Defined.

Lemma createUser_replaces_one_entry_witness :
  ∃ user db',
    createUser (services := demo_externals) mixed_case_user "s3cret" one_user_db
      = (Resolved user, db')
    ∧ users db' !! "User#eve@example.com" = users one_user_db !! "User#eve@example.com".
Proof.
  destruct (createUser_replaces_one_entry (services := demo_externals)
              mixed_case_user "s3cret" one_user_db)
    as (user & db' & Hrun & Hid & _ & _ & Hframe & _).
  exists user, db'. split; [assumption|]. apply Hframe. rewrite Hid. discriminate.
Defined.

Lemma deleteUser_removes_user_and_hash_witness :
  ∃ db',
    deleteUser "User#ada@example.com" one_user_db = (Resolved tt, db')
    ∧ verifyLogin (services := demo_externals) "Ada@Example.com" "s3cret" db'
        = (Resolved None, db')
    ∧ users db' !! "User#eve@example.com" = users one_user_db !! "User#eve@example.com".
Proof.
  destruct (deleteUser_removes_user_and_hash (services := demo_externals)
              "User#ada@example.com" one_user_db)
    as (db' & Hrun & _ & _ & Hframe & _ & Hlogin).
  exists db'. split; [assumption|]. split.
  - apply Hlogin. reflexivity.
  - apply Hframe. discriminate.
Defined.

Lemma deleteUserByEmail_uses_email_verbatim_witness :
  passwords
    (snd (deleteUserByEmail "Ada@Example.com"
            (snd (createUser (services := demo_externals)
                    mixed_case_user "s3cret" empty_db))))
    !! "User#ada@example.com"
  = Some (bcrypt_hash (Externals := demo_externals) "s3cret" 10).
Proof.
  pose proof (deleteUserByEmail_uses_email_verbatim (services := demo_externals)
                mixed_case_user "s3cret" empty_db) as Hthm.
  cbv zeta in Hthm. destruct Hthm as (_ & _ & _ & Hkeep).
  destruct Hkeep as (_ & _ & Hhash); [discriminate|]. exact Hhash.
Defined.


Lemma getUserListItems_lists_stored_users_witness :
  ∃ Items,
    getUserListItems one_user_db = (Resolved Items, one_user_db)
    ∧ (demo_user "ada@example.com" BUDDY "2030-01-01" ∈ Items
       ↔ getUserById "User#ada@example.com" one_user_db
           = (Resolved (Some (demo_user "ada@example.com" BUDDY "2030-01-01")),
              one_user_db)).
Proof.
  destruct (getUserListItems_lists_stored_users one_user_db)
    as (Items & Hrun & _ & _ & Hkeyed).
  exists Items. split; [assumption|].
  apply (Hkeyed
           (λ k u Hk,
              match proj1 (lookup_singleton_Some _ _ _ _) Hk with
              | conj Hkey Hu => eq_trans (f_equal user_id (eq_sym Hu)) Hkey
              end)
           (demo_user "ada@example.com" BUDDY "2030-01-01")).
Defined.

Lemma isUserId_iff_email2UserId_witness :
  isUserId (JsString "User#ada@example.com") = true.
Proof.
  apply (isUserId_iff_email2UserId (JsString "User#ada@example.com")).
  by exists "ada@example.com".
Defined.

Lemma updateMentee_replaces_whole_item_witness :
  ∃ stored db',
    updateMentee (<["id" := "m1"]> mentee_form) one_mentee_db = (Resolved stored, db')
    ∧ stored !! "status" = None
    ∧ stored !! "email" = Some "Bob@Example.com".
Proof.
  destruct (updateMentee_replaces_whole_item
              (<["id" := "m1"]> mentee_form) "m1" one_mentee_db)
    as (stored & db' & Hrun & _ & _ & _ & Hattr & _); [reflexivity..|].
  exists stored, db'. split; [assumption|]. split.
  - rewrite Hattr by discriminate. reflexivity.
  - rewrite Hattr by discriminate. reflexivity.
Defined.

Lemma createNote_then_getNote_witness :
  ∃ note db',
    createNote (services := demo_externals) "n2" 0 "m1" "second note"
        "User#ada@example.com" one_mentee_db = (Resolved note, db')
    ∧ getNote "m1" "n2" db' = (Resolved (Some note), db')
    ∧ mentees db' !! ("Mentee#m1", "Note#n1")
        = mentees one_mentee_db !! ("Mentee#m1", "Note#n1").
Proof.
  destruct (createNote_then_getNote (services := demo_externals) "n2" 0 "m1"
              "second note" "User#ada@example.com" one_mentee_db)
    as (note & db' & Hrun & Hget & _ & _ & _ & _ & _ & _ & Hframe & _).
  exists note, db'. split; [assumption|]. split; [assumption|]. apply Hframe. discriminate.
Defined.

Lemma updateNote_sets_content_and_stamp_witness :
  ∃ after db',
    updateNote (services := demo_externals) 0 "m1" "n1" "edited" one_mentee_db
      = (Resolved tt, db')
    ∧ getNote "m1" "n1" db' = (Resolved (Some after), db')
    ∧ after !! "content" = Some "edited"
    ∧ after !! "authorId" = Some "User#ada@example.com".
Proof.
  destruct (updateNote_sets_content_and_stamp (services := demo_externals)
              0 "m1" "n1" "edited" one_mentee_db
              {[ "pk" := "Mentee#m1"; "sk" := "Note#n1"; "id" := "n1";
                 "content" := "met at the airport";
                 "authorId" := "User#ada@example.com";
                 "createdAt" := "2024-05-01T00:00:00.000Z" ]})
    as (after & db' & Hrun & Hget & Hcontent & _ & Hkeep & _); [reflexivity|].
  exists after, db'. split; [assumption|]. split; [assumption|]. split; [assumption|].
  rewrite Hkeep by discriminate. reflexivity.
Defined.

Lemma updateNote_creates_missing_note_witness :
  ∃ created db',
    updateNote (services := demo_externals) 0 "m1" "n9" "late edit" empty_db
      = (Resolved tt, db')
    ∧ getNote "m1" "n9" db' = (Resolved (Some created), db')
    ∧ created !! "id" = None.
Proof.
  destruct (updateNote_creates_missing_note (services := demo_externals)
              0 "m1" "n9" "late edit" empty_db)
    as (created & db' & Hrun & Hget & _ & _ & Hid & _); [reflexivity|].
  exists created, db'. repeat split; assumption.
Defined.

Lemma deleteNote_removes_one_note_witness :
  ∃ db', deleteNote "m1" "n1" empty_db = (Resolved tt, db') ∧ db' = empty_db.
Proof.
  destruct (deleteNote_removes_one_note "m1" "n1" empty_db)
    as (db' & Hrun & _ & _ & _ & _ & _ & Hsame).
  exists db'. split; [assumption|]. apply Hsame. reflexivity.
Defined.

Lemma getAllMentees_lists_mentee_keys_witness :
  ∃ Items,
    getAllMentees one_mentee_db = (Resolved Items, one_mentee_db)
    ∧ ({[ "pk" := "Mentee#m1"; "sk" := "Mentee#m1"; "id" := "m1";
          "status" := "assigned"; "email" := "bob@example.com";
          "buddyId" := "User#ada@example.com" ]} : Item) ∈ Items.
Proof.
  destruct (getAllMentees_lists_mentee_keys one_mentee_db) as (Items & Hrun & _ & Hget).
  exists Items. split; [assumption|]. apply (Hget "m1"). apply getMenteeById_run.
Defined.

Lemma createMentee_listed_for_buddy_witness :
  ∃ Items : list Item,
    getMenteeCount "User#ada@example.com" (snd (createMentee "c1" mentee_form empty_db))
      = (Resolved (length Items), snd (createMentee "c1" mentee_form empty_db))
    ∧ 0 < length Items.
Proof.
  destruct (createMentee_listed_for_buddy
              "c1" mentee_form "Bob@Example.com" "User#ada@example.com" empty_db)
    as (Items & _ & Hcount & Hpos & _); [reflexivity..|].
  exists Items. split; assumption.
Defined.

Lemma createMentee_blocks_buddy_deletion_witness :
  fst (canUserDeleteUser (services := demo_externals)
         (demo_user "root@example.com" ADMIN "2030-01-01")
         (demo_user "ada@example.com" BUDDY "2030-01-01")
         (snd (createMentee "c1" mentee_form empty_db)))
    = Resolved (deny "You can not delete a user with active mentees").
Proof.
  apply (createMentee_blocks_buddy_deletion (services := demo_externals)
           (demo_user "root@example.com" ADMIN "2030-01-01")
           (demo_user "ada@example.com" BUDDY "2030-01-01")
           "c1" mentee_form "Bob@Example.com" empty_db);
    [reflexivity | reflexivity | discriminate | discriminate | cbv; lia].
Defined.

Lemma canUserMutateMentee_above_buddy_witness :
  canUserMutateNote (demo_user "hr@example.com" HR "2030-01-01")
    (demo_note "User#ada@example.com") = true
  ∧ (canUserMutateNote (demo_user "ada@example.com" BUDDY "2030-01-01")
       (demo_note "User#ada@example.com") = true
     ↔ user_id (demo_user "ada@example.com" BUDDY "2030-01-01")
         = authorId (demo_note "User#ada@example.com")).
Proof.
  split.
  - destruct (canUserMutateMentee_above_buddy
                (demo_user "hr@example.com" HR "2030-01-01")) as (_ & Hany & _).
    apply Hany. reflexivity.
  - destruct (canUserMutateMentee_above_buddy
                (demo_user "ada@example.com" BUDDY "2030-01-01")) as (_ & _ & Hown).
    apply Hown. reflexivity.
Defined.

Lemma notes_keyed_by_id_kept_witness :
  notes_keyed_by_id (snd (createMentee "c1" mentee_form one_mentee_db)) "m1"
  ∧ notes_keyed_by_id
      (snd (updateMentee (<["id" := "m1"]> mentee_form) one_mentee_db)) "m1"
  ∧ notes_keyed_by_id
      (snd (updateNote (services := demo_externals) 0 "m1" "n1" "edited" one_mentee_db))
      "m1"
  ∧ notes_keyed_by_id (snd (deleteMentee "m1" one_mentee_db)) "m1".
Proof.
  destruct (notes_keyed_by_id_kept (services := demo_externals) one_mentee_db "m1")
    as (Hcreate & Hreplace & _ & _ & Hedit & _ & Hdelete).
  - intros sk it Hk Hpre. unfold one_mentee_db in Hk. cbn [mentees] in Hk.
    apply lookup_insert_Some in Hk as [[[= <-] <-]|[_ Hk]]; [discriminate|].
    apply lookup_singleton_Some in Hk as [[= <-] <-]. reflexivity.
  - split; [|split; [|split]].
    + apply (Hcreate "c1" mentee_form "Bob@Example.com"); [reflexivity|].
      unfold unsaved_mentee. split; [by eexists|]. by repeat split.
    + apply (Hreplace (<["id" := "m1"]> mentee_form) "m1"); reflexivity.
    + apply Hedit. by eexists.
    + apply Hdelete.
Defined.

Lemma updateMenteeStatus_creates_missing_mentee_witness :
  ∃ created db',
    updateMenteeStatus "ghost" "served" empty_db = (Resolved tt, db')
    ∧ getMenteeById "ghost" db' = (Resolved (Some created), db')
    ∧ created !! "status" = Some "served"
    ∧ created !! "email" = None.
Proof.
  destruct (updateMenteeStatus_creates_missing_mentee "ghost" "served" empty_db)
    as (created & db' & Hrun & Hget & Hst & _ & _ & Hnone); [reflexivity|].
  exists created, db'. split; [assumption|]. split; [assumption|]. split; [assumption|].
  apply Hnone; discriminate.
Defined.

Lemma deleteMentee_of_unknown_id_witness :
  deleteMentee "m1" empty_db = (Resolved tt, empty_db).
Proof.
  apply (deleteMentee_of_unknown_id "m1" empty_db).
  intros sk. apply lookup_empty.
Defined.

Lemma stringAvatar_initials_witness :
  avatar.stringAvatar "Ada" = Rejected "TypeError"
  ∧ avatar.stringAvatar ("Ada" +:+ " " +:+ "Lovelace")
      = Resolved {| avatar.bgcolor := avatar.stringToColor ("Ada" +:+ " " +:+ "Lovelace");
                    avatar.children := "AL" |}.
Proof.
  destruct stringAvatar_initials as [Hnone Htwo]. split.
  - apply Hnone. reflexivity.
  - apply (Htwo "A"%char "L"%char "da" "ovelace"); [reflexivity | discriminate].
Defined.

Lemma mentee_edit_loader_gate_witness :
  mentee_edit.loader (demo_user "ada@example.com" BUDDY "2030-01-01") (Some "m1")
      one_mentee_db
    = (Resolved (mentee_edit.redirect "/dashboard"), one_mentee_db)
  ∧ mentee_edit.loader (demo_user "hr@example.com" HR "2030-01-01") None one_mentee_db
    = (Rejected "Invariant failed: Mentee ID is required", one_mentee_db)
  ∧ mentee_edit.loader (demo_user "hr@example.com" HR "2030-01-01") (Some "m1")
      one_mentee_db
    = (match mentees one_mentee_db !! ("Mentee#" +:+ "m1", "Mentee#" +:+ "m1") with
       | Some mentee => Resolved (mentee_edit.json_mentee mentee)
       | None => Rejected "Invariant failed: Mentee not found"
       end, one_mentee_db).
Proof.
  split; [|split].
  - apply (mentee_edit_loader_gate (demo_user "ada@example.com" BUDDY "2030-01-01")
             (Some "m1") one_mentee_db). reflexivity.
  - apply (mentee_edit_loader_gate (demo_user "hr@example.com" HR "2030-01-01")
             None one_mentee_db); [reflexivity | by left].
  - apply (proj1 (proj2 (mentee_edit_loader_gate
             (demo_user "hr@example.com" HR "2030-01-01") (Some "m1") one_mentee_db)));
      [reflexivity | reflexivity | discriminate].
Defined.

Lemma agreement_window_ok_spec_witness :
  date_gt (Date_parse (Externals := demo_externals) "2030-01-01") 1700000000000 = true.
Proof.
  apply (proj2 (proj2 (agreement_window_ok_spec (services := demo_externals)
                         1700000000000 "2020-01-01" "2030-01-01")));
    [discriminate | discriminate | reflexivity].
Defined.
